(** * roipoly: interactive polygonal regions of interest

    A shallow embedding of [roipoly.py]: the mouse-event state machine of
    a [RoiPoly] session, the mask and statistics computations, the
    [MultiRoi] orchestrator and the deprecated aliases, followed by the
    properties established about them.

    Conventions of the embedding.
    - Python statements that return [None] yield an [outcome]; Python
      expressions yield a [result].  A raised exception keeps the state
      reached at the point of the [raise].
    - Click coordinates are only stored and handed on by this module,
      never computed with, so the session is parametric in their type
      [coord].
    - matplotlib and numpy are outside the repository.  What the module
      reads back from them is kept as explicit state ([Figure],
      [Warnings.state]); the point-in-polygon routine
      [Path.contains_points], the floating-point routines [np.mean] and
      [np.std] and the float formatting of [display_mean] are
      parameters. *)

From Stdlib Require Import List String Ascii Bool Arith ZArith Lia.
From Stdlib Require Import DecimalString.
Import ListNotations.

Set Implicit Arguments.

(* ================================================================= *)
(** ** Python values, exceptions and containers *)

Module Py.

Inductive exn : Type :=
| IndexError
| ValueError
| ZeroDivisionError
| WarningError (message : string).

(** The value of an expression: a result or a raised exception. *)
Inductive result (A : Type) : Type :=
| Ok (a : A)
| Raise (e : exn).
Arguments Ok {A} a.
Arguments Raise {A} e.

(** The effect of a statement sequence that returns [None]. *)
Inductive outcome : Type :=
| Normal
| Raised (e : exn).

(** [l[i]] for a non-negative index. *)
Definition index {A : Type} (l : list A) (i : nat) : result A :=
  match nth_error l i with
  | Some a => Ok a
  | None => Raise IndexError
  end.

(** [str(n)] for a non-negative integer. *)
Definition str (n : nat) : string :=
  NilEmpty.string_of_uint (Nat.to_uint n).

(** [a % b] for non-negative integers. *)
Definition mod_ (a b : nat) : result nat :=
  match b with
  | O => Raise ZeroDivisionError
  | S _ => Ok (Nat.modulo a b)
  end.

(** A [dict] with string keys: insertion-ordered, keys unique. *)
Definition dict (V : Type) : Type := list (string * V).

(** [d[k] = v]: an existing key keeps its position and takes the new
    value, a new key goes last. *)
Fixpoint setitem {V : Type} (d : dict V) (k : string) (v : V) : dict V :=
  match d with
  | [] => [(k, v)]
  | (k', v') :: rest =>
      if String.eqb k' k then (k, v) :: rest
      else (k', v') :: setitem rest k v
  end.

Definition keys {V : Type} (d : dict V) : list string := map fst d.
Definition values {V : Type} (d : dict V) : list V := map snd d.

End Py.
Import Py.

(* ================================================================= *)
(** ** The [warnings] machinery the module configures and calls *)

Module Warnings.

Inductive category : Type := DeprecationWarning | UserWarning.

Inductive action : Type :=
| error | ignore | always | default | module | once.

(** A filter entry of [warnings.simplefilter]: an action and the
    category it applies to ([None] is the base class [Warning]). *)
Definition filter : Type := (action * option category)%type.

Record state : Type := mkState {
  filters : list filter;
  (** messages already reported under a once-per-location action *)
  registry : list string;
  (** messages reported to the user, oldest first *)
  shown : list string
}.

Definition category_eqb (a b : category) : bool :=
  match a, b with
  | DeprecationWarning, DeprecationWarning => true
  | UserWarning, UserWarning => true
  | _, _ => false
  end.

Definition matches (c : category) (f : filter) : bool :=
  match snd f with
  | None => true
  | Some c' => category_eqb c c'
  end.

(** The first matching filter decides; with none, the default action. *)
Definition action_for (c : category) (fs : list filter) : action :=
  match find (matches c) fs with
  | Some f => fst f
  | None => default
  end.

(** [warnings.simplefilter(a, c)]: the entry goes to the front and the
    once-per-location registries are invalidated. *)
Definition simplefilter (a : action) (c : category) (w : state) : state :=
  {| filters := (a, Some c) :: filters w;
     registry := [];
     shown := shown w |}.

Definition seen (message : string) (w : state) : bool :=
  existsb (String.eqb message) (registry w).

(** The message is printed. *)
Definition report (message : string) (w : state) : state :=
  {| filters := filters w;
     registry := registry w;
     shown := shown w ++ [message] |}.

(** The message is entered in the registry of its source line. *)
Definition remember (message : string) (w : state) : state :=
  {| filters := filters w;
     registry := message :: registry w;
     shown := shown w |}.

(** [warnings.warn(message, c)] issued from one fixed source line, as
    every call of this module is (the line inside [deprecation]). *)
Definition warn (message : string) (c : category) (w : state)
  : outcome * state :=
  match action_for c (filters w) with
  | ignore => (Normal, w)
  | error => (Raised (WarningError message), w)
  | always => (Normal, report message w)
  | default | module | once =>
      if seen message w then (Normal, w)
      else (Normal, report message (remember message w))
  end.

(** A state with no filter installed and nothing printed yet. *)
Definition fresh : state :=
  {| filters := []; registry := []; shown := [] |}.

End Warnings.

(** Line 12 of the module, run once at import:
    [warnings.simplefilter('always', DeprecationWarning)]. *)
Definition import_roipoly (w : Warnings.state) : Warnings.state :=
  Warnings.simplefilter Warnings.always Warnings.DeprecationWarning w.

Definition deprecation (message : string) (w : Warnings.state)
  : outcome * Warnings.state :=
  Warnings.warn message Warnings.DeprecationWarning w.

(* ================================================================= *)
(** ** numpy arrays of two dimensions *)

(** A 2D [ndarray]: its [shape] [(ny, nx)] and its elements in row-major
    order, as [flatten] and [reshape] see them. *)
Record ndarray (A : Type) : Type := mkArray {
  shape : nat * nat;
  flat : list A
}.

(** [np.arange(n)] *)
Definition arange (n : nat) : list Z := map Z.of_nat (seq 0 n).

(** The rows of [np.vstack((x, y)).T] for the flattened
    [np.meshgrid(np.arange(nx), np.arange(ny))]: the grid points
    [(col, row)], row by row. *)
Definition meshgrid_points (nx ny : nat) : list (Z * Z) :=
  flat_map (fun row => map (fun col => (col, row)) (arange nx)) (arange ny).

(** [np.extract(mask, image)]: the elements of [image] where [mask]
    holds, in flattened order. *)
Definition extract {A : Type} (mask : ndarray bool) (image : ndarray A)
  : list A :=
  map snd (filter fst (combine (flat mask) (flat image))).

(* ================================================================= *)
(** ** The figure, the session and its event handlers *)

Section Session.

(** The type of [event.xdata] and [event.ydata]. *)
Variable coord : Type.

(** [sys.flags.interactive], fixed for the life of the process. *)
Variable interactive : bool.

(** [plt.Line2D(xs, ys, marker=..., color=...)] *)
Record Line2D : Type := mkLine2D {
  line_x : list coord;
  line_y : list coord;
  marker : option string;
  line_color : string
}.

Definition set_data (l : Line2D) (xs ys : list coord) : Line2D :=
  {| line_x := xs; line_y := ys;
     marker := marker l; line_color := line_color l |}.

(** The rendering surface: one figure with its canvas and axes.  Axes
    and callback connections are identified by numbers.  Artists are
    recorded with the data they had when added; nothing in the module
    reads them back. *)
Record Figure : Type := mkFigure {
  closed : bool;                 (* plt.close(fig) was called *)
  shows : list bool;             (* plt.show(block=b) calls *)
  draws : nat;                   (* canvas.draw() and plt.draw() calls *)
  lines : list (nat * Line2D);   (* ax.add_line(l), oldest first *)
  texts : list (coord * coord * string * string);   (* plt.text *)
  title : string;                (* ax.set_title *)
  callbacks : list nat;          (* connection ids still connected *)
  next_cid : nat;
  gca : nat;                     (* plt.gca() *)
  n_axes : nat                   (* axes created so far, numbered from 0 *)
}.

Definition close (fig : Figure) : Figure :=
  mkFigure true (shows fig) (draws fig) (lines fig) (texts fig)
           (title fig) (callbacks fig) (next_cid fig) (gca fig)
           (n_axes fig).

Definition show (block : bool) (fig : Figure) : Figure :=
  mkFigure (closed fig) (shows fig ++ [block]) (draws fig) (lines fig)
           (texts fig) (title fig) (callbacks fig) (next_cid fig)
           (gca fig) (n_axes fig).

Definition draw (fig : Figure) : Figure :=
  mkFigure (closed fig) (shows fig) (S (draws fig)) (lines fig)
           (texts fig) (title fig) (callbacks fig) (next_cid fig)
           (gca fig) (n_axes fig).

Definition add_line (a : nat) (l : Line2D) (fig : Figure) : Figure :=
  mkFigure (closed fig) (shows fig) (draws fig) (lines fig ++ [(a, l)])
           (texts fig) (title fig) (callbacks fig) (next_cid fig)
           (gca fig) (n_axes fig).

Definition text (tx ty : coord) (s c : string) (fig : Figure) : Figure :=
  mkFigure (closed fig) (shows fig) (draws fig) (lines fig)
           (texts fig ++ [(tx, ty, s, c)]) (title fig) (callbacks fig)
           (next_cid fig) (gca fig) (n_axes fig).

Definition set_title (s : string) (fig : Figure) : Figure :=
  mkFigure (closed fig) (shows fig) (draws fig) (lines fig) (texts fig)
           s (callbacks fig) (next_cid fig) (gca fig) (n_axes fig).

(** [fig.canvas.mpl_connect(kind, handler)] returns a fresh id. *)
Definition mpl_connect (fig : Figure) : nat * Figure :=
  (next_cid fig,
   mkFigure (closed fig) (shows fig) (draws fig) (lines fig) (texts fig)
            (title fig) (callbacks fig ++ [next_cid fig])
            (S (next_cid fig)) (gca fig) (n_axes fig)).

Definition mpl_disconnect (cid : nat) (fig : Figure) : Figure :=
  mkFigure (closed fig) (shows fig) (draws fig) (lines fig) (texts fig)
           (title fig)
           (filter (fun c => negb (Nat.eqb c cid)) (callbacks fig))
           (next_cid fig) (gca fig) (n_axes fig).

(** [plt.axes(rect)]: a new axes is added to the figure and becomes the
    current one. *)
Definition plt_axes (fig : Figure) : nat * Figure :=
  (n_axes fig,
   mkFigure (closed fig) (shows fig) (draws fig) (lines fig) (texts fig)
            (title fig) (callbacks fig) (next_cid fig) (n_axes fig)
            (S (n_axes fig))).

Definition connected (cid : nat) (fig : Figure) : bool :=
  existsb (Nat.eqb cid) (callbacks fig).

(** The fields of a [RoiPoly] object.  [self.fig] is the one [Figure]
    threaded through every operation; [cid1] and [cid2] are the
    private connection ids of the motion and button handlers. *)
Record RoiPoly : Type := mkRoiPoly {
  start_point : list coord;
  end_point : list coord;
  previous_point : list coord;
  x : list coord;
  y : list coord;
  line : option Line2D;
  completed : bool;
  color : string;
  ax : nat;
  close_figure : bool;
  cid1 : nat;
  cid2 : nat
}.

(** The input event of the GUI toolkit. *)
Record MouseEvent : Type := mkEvent {
  inaxes : option nat;
  button : option Z;
  dblclick : bool;
  xdata : coord;
  ydata : coord
}.

(** [event.inaxes == self.ax] *)
Definition in_axes (event : MouseEvent) (self : RoiPoly) : bool :=
  match inaxes event with
  | Some a => Nat.eqb a (ax self)
  | None => false
  end.

(** [event.button == b] *)
Definition button_is (event : MouseEvent) (b : Z) : bool :=
  match button event with
  | Some b' => Z.eqb b' b
  | None => false
  end.

(** [event.button is None] *)
Definition button_is_None (event : MouseEvent) : bool :=
  match button event with
  | Some _ => false
  | None => true
  end.

Definition State : Type := (RoiPoly * Figure)%type.

Definition motion_notify_callback (event : MouseEvent) (st : State)
  : outcome * State :=
  let (self, fig) := st in
  if in_axes event self then
    match line self with
    | Some l =>
        if button_is_None event || button_is event 1 then
          match index (previous_point self) 0,
                index (previous_point self) 1 with
          | Ok px, Ok py =>
              let l' := set_data l [px; xdata event] [py; ydata event] in
              (Normal,
               (mkRoiPoly (start_point self) (end_point self)
                          (previous_point self) (x self) (y self)
                          (Some l') (completed self) (color self)
                          (ax self) (close_figure self)
                          (cid1 self) (cid2 self),
                draw fig))
          | _, _ => (Raised IndexError, st)
          end
        else (Normal, st)
    | None => (Normal, st)
    end
  else (Normal, st).

(** The [if button == 1 and not dblclick] branch: a vertex is added. *)
Definition add_vertex (event : MouseEvent) (st : State)
  : outcome * State :=
  let (self, fig) := st in
  let ex := xdata event in
  let ey := ydata event in
  match line self with
  | None =>
      let l := mkLine2D [ex; ex] [ey; ey] (Some "o"%string) (color self) in
      (Normal,
       (mkRoiPoly [ex; ey] (end_point self) [ex; ey] [ex] [ey]
                  (Some l) (completed self) (color self) (ax self)
                  (close_figure self) (cid1 self) (cid2 self),
        draw (add_line (ax self) l fig)))
  | Some _ =>
      match index (previous_point self) 0,
            index (previous_point self) 1 with
      | Ok px, Ok py =>
          let l := mkLine2D [px; ex] [py; ey] (Some "o"%string)
                            (color self) in
          (Normal,
           (mkRoiPoly (start_point self) (end_point self) [ex; ey]
                      (x self ++ [ex]) (y self ++ [ey])
                      (Some l) (completed self) (color self) (ax self)
                      (close_figure self) (cid1 self) (cid2 self),
            draw (add_line (ax self) l fig)))
      | _, _ => (Raised IndexError, st)
      end
  end.

(** The [elif] branch, entered with [self.line] being [l]: the loop is
    closed. *)
Definition close_loop (l : Line2D) (st : State) : outcome * State :=
  let (self, fig) := st in
  let (o, st1) :=
    if (List.length (x self) =? 1)%nat && (List.length (y self) =? 1)%nat then
      (Normal,
       (mkRoiPoly (start_point self) (end_point self)
                  (previous_point self) (x self) (y self) (line self)
                  true (color self) (ax self) (close_figure self)
                  (cid1 self) (cid2 self),
        fig))
    else
      let fig1 := mpl_disconnect (cid2 self)
                    (mpl_disconnect (cid1 self) fig) in
      match index (previous_point self) 0, index (start_point self) 0,
            index (previous_point self) 1, index (start_point self) 1 with
      | Ok px, Ok sx, Ok py, Ok sy =>
          let l' := set_data l [px; sx] [py; sy] in
          (Normal,
           (mkRoiPoly (start_point self) (end_point self)
                      (previous_point self) (x self) (y self) None
                      true (color self) (ax self) (close_figure self)
                      (cid1 self) (cid2 self),
            draw (add_line (ax self) l' fig1)))
      | _, _, _, _ => (Raised IndexError, (self, fig1))
      end in
  match o with
  | Normal =>
      if negb interactive && close_figure (fst st1)
      then (Normal, (fst st1, close (snd st1)))
      else (Normal, st1)
  | Raised e => (Raised e, st1)
  end.

(** A double click of button 1 or a single click of button 3. *)
Definition closing_gesture (event : MouseEvent) : bool :=
  (button_is event 1 && dblclick event)
  || (button_is event 3 && negb (dblclick event)).

Definition button_press_callback (event : MouseEvent) (st : State)
  : outcome * State :=
  let (self, fig) := st in
  if in_axes event self then
    if button_is event 1 && negb (dblclick event) then
      add_vertex event st
    else
      match line self with
      | Some l =>
          if closing_gesture event then close_loop l st else (Normal, st)
      | None => (Normal, st)
      end
  else (Normal, st).

Definition get_roi_coordinates (self : RoiPoly) : list (coord * coord) :=
  combine (x self) (y self).

(** *** Event delivery by the canvas *)

Inductive gui_event : Type :=
| motion_notify_event (event : MouseEvent)
| button_press_event (event : MouseEvent).

(** The canvas calls a handler only while its connection id is
    registered; an exception raised by a handler is reported by the
    event loop and the state reached is kept. *)
Definition deliver (ev : gui_event) (st : State) : State :=
  match ev with
  | motion_notify_event event =>
      if connected (cid1 (fst st)) (snd st)
      then snd (motion_notify_callback event st) else st
  | button_press_event event =>
      if connected (cid2 (fst st)) (snd st)
      then snd (button_press_callback event st) else st
  end.

(** A closed figure has no window and receives no events. *)
Definition dispatch (ev : gui_event) (st : State) : State :=
  if closed (snd st) then st else deliver ev st.

Definition run (evs : list gui_event) (st : State) : State :=
  fold_left (fun s ev => dispatch ev s) evs st.

(** *** Construction *)

(** The process state the constructors and aliases act on. *)
Record World : Type := mkWorld {
  warnings : Warnings.state;
  figure : Figure
}.

(** [show_figure()]: [plt.show(block=False)] in an interactive
    interpreter, [plt.show(block=True)] otherwise.  The event loop that
    a blocking [show] runs is [run], applied from outside. *)
Definition show_figure (fig : Figure) : Figure :=
  if interactive then show false fig else show true fig.

(** [RoiPoly(fig, ax, color, roicolor, show_fig, close_fig)].  The model
    has one figure, so [fig] (given, or [plt.gcf()]) is [figure w]. *)
Definition RoiPoly_init (ax_arg : option nat) (color_arg : string)
    (roicolor : option string) (show_fig close_fig : bool) (w : World)
  : result RoiPoly * World :=
  let (o, ws) :=
    match roicolor with
    | Some _ =>
        deprecation "Use 'color' instead of 'roicolor'!" (warnings w)
    | None => (Normal, warnings w)
    end in
  match o with
  | Raised e => (Raise e, mkWorld ws (figure w))
  | Normal =>
      let c := match roicolor with
               | Some rc => rc
               | None => color_arg
               end in
      let fig := figure w in
      let a := match ax_arg with
               | Some a => a
               | None => gca fig
               end in
      let (c1, fig1) := mpl_connect fig in
      let (c2, fig2) := mpl_connect fig1 in
      let self := mkRoiPoly [] [] [] [] [] None false c a close_fig c1 c2 in
      (Ok self, mkWorld ws (if show_fig then show_figure fig2 else fig2))
  end.

End Session.

Arguments mkEvent {coord} inaxes button dblclick xdata ydata.

(* ================================================================= *)
(** ** Mask, statistics and display *)

Section Mask.

Variable coord : Type.

(** matplotlib's verdict of [MplPath(verts).contains_points(points)]
    for one point of [points]; the routine is not part of the
    repository and is left uninterpreted. *)
Variable contains_point : list (coord * coord) -> Z * Z -> bool.

(** The element type of an image, and numpy's floating-point scalars
    (rounded values, infinities and NaN). *)
Variable pixel : Type.
Variable scalar : Type.

(** [np.mean(a)] and [np.std(a)] of a one-dimensional array, each
    called with its default arguments (for [np.std], [ddof=0]).  Both
    compute in floating point inside numpy and are left uninterpreted;
    a RuntimeWarning numpy issues on its own is not recorded. *)
Variable np_mean : list pixel -> scalar.
Variable np_std : list pixel -> scalar.

(** ["%.3f +- %.3f" % (mean, std)], likewise. *)
Variable format_stats : scalar -> scalar -> string.

Definition contains_points (verts : list (coord * coord))
    (points : list (Z * Z)) : list bool :=
  map (contains_point verts) points.

(** [[(self.x[0], self.y[0])]
     + list(zip(reversed(self.x), reversed(self.y)))] *)
Definition poly_verts (self : RoiPoly coord)
  : result (list (coord * coord)) :=
  match index (x self) 0 with
  | Raise e => Raise e
  | Ok x0 =>
      match index (y self) 0 with
      | Raise e => Raise e
      | Ok y0 => Ok ((x0, y0) :: combine (rev (x self)) (rev (y self)))
      end
  end.

Definition get_mask {A : Type} (self : RoiPoly coord) (image : ndarray A)
  : result (ndarray bool) :=
  let (ny, nx) := shape image in
  match poly_verts self with
  | Raise e => Raise e
  | Ok verts =>
      Ok (mkArray (ny, nx)
                  (contains_points verts (meshgrid_points nx ny)))
  end.

(** [display_roi()]; the keyword arguments for the line are styling
    only and are not modelled. *)
Definition display_roi (self : RoiPoly coord) (fig : Figure coord)
  : outcome * Figure coord :=
  match index (x self) 0, index (y self) 0 with
  | Ok x0, Ok y0 =>
      let l := mkLine2D (x self ++ [x0]) (y self ++ [y0]) None
                        (color self) in
      (Normal, draw (add_line (gca fig) l fig))
  | _, _ => (Raised IndexError, fig)
  end.

(** *** Statistics *)

Definition get_mean_and_std (self : RoiPoly coord) (image : ndarray pixel)
  : result (scalar * scalar) :=
  match get_mask self image with
  | Raise e => Raise e
  | Ok mask =>
      Ok (np_mean (extract mask image), np_std (extract mask image))
  end.

Definition display_mean (self : RoiPoly coord) (image : ndarray pixel)
    (fig : Figure coord) : outcome * Figure coord :=
  match get_mean_and_std self image with
  | Raise e => (Raised e, fig)
  | Ok (mean, std) =>
      match index (x self) 0, index (y self) 0 with
      | Ok x0, Ok y0 =>
          (Normal, text x0 y0 (format_stats mean std) (color self) fig)
      | _, _ => (Raised IndexError, fig)
      end
  end.

(** *** The deprecated aliases *)

Variable interactive : bool.

(** The world after the warning of an alias has been issued. *)
Definition warned (message : string) (w : World coord)
  : outcome * World coord :=
  let (o, ws) := deprecation message (warnings w) in
  (o, mkWorld ws (figure w)).




Definition roipoly (ax_arg : option nat) (color_arg : string)
    (roicolor : option string) (show_fig close_fig : bool)
    (w : World coord) : result (RoiPoly coord) * World coord :=
  match warned "Import 'RoiPoly' instead of 'roipoly'!" w with
  | (Raised e, w') => (Raise e, w')
  | (Normal, w') =>
      RoiPoly_init interactive ax_arg color_arg roicolor
                   show_fig close_fig w'
  end.

End Mask.

(* ================================================================= *)
(** ** The multi-ROI orchestrator *)

Section Multi.

Variable coord : Type.
Variable interactive : bool.

(** The fields of a [MultiRoi] object.  [rois] maps a name to a
    reference to its session in the object store. *)
Record MultiRoi : Type := mkMultiRoi {
  color_cycle : list string;
  roi_names : option (list string);
  multi_ax : nat;
  rois : dict nat
}.

(** The program state: the orchestrator, every [RoiPoly] object created
    so far (in creation order; a reference is a position) and the
    process state.  The canvas holds the handlers of every object,
    whether [rois] still names it or not. *)
Record Program : Type := mkProgram {
  multi : MultiRoi;
  objects : list (RoiPoly coord);
  world : World coord
}.

(** [r.completed] for a reference [r]. *)
Definition completed_at (objs : list (RoiPoly coord)) (r : nat) : bool :=
  match nth_error objs r with
  | Some s => completed s
  | None => false
  end.

(** [all(r.completed for r in self.rois.values())] *)
Definition all_completed (p : Program) : bool :=
  forallb (completed_at (objects p)) (values (rois (multi p))).

Definition nonempty {V : Type} (d : dict V) : bool :=
  match d with
  | [] => false
  | _ :: _ => true
  end.

Definition default_color_cycle : list string :=
  ["b"; "g"; "r"; "c"; "m"; "y"; "k"]%string.

(** [make_buttons()]: [plt.axes] makes an axes for each button, the
    second of them being the current axes afterwards, and
    [plt.show(block=True)] enters the event loop.  The clicks on the
    buttons are the triggers [add_clicked] and [finish_clicked] below;
    the connections the button widgets keep with the canvas are
    internal to matplotlib and are not recorded. *)
Definition make_buttons (fig : Figure coord) : Figure coord :=
  let (ax_add_btn, fig1) := plt_axes fig in
  let (ax_finish_btn, fig2) := plt_axes fig1 in
  show true fig2.

(** [MultiRoi(fig, ax, roi_names, color_cycle)]; [ax] defaults to the
    axes that is current before the buttons are made. *)
Definition MultiRoi_init (ax_arg : option nat)
    (names : option (list string)) (colors : list string)
    (w : World coord) : Program :=
  let a := match ax_arg with
           | Some a => a
           | None => gca (figure w)
           end in
  mkProgram (mkMultiRoi colors names a []) []
            (mkWorld (warnings w) (make_buttons (figure w))).

(** The name of the next session:
    [self.roi_names[idx]] if [self.roi_names is not None and
    idx < len(self.roi_names)], else [str(count + 1)]. *)
Definition pick_name (m : MultiRoi) (count idx : nat) : result string :=
  match roi_names m with
  | Some names =>
      if idx <? List.length names then index names idx
      else Ok (str (count + 1))
  | None => Ok (str (count + 1))
  end.

Definition add (p : Program) : outcome * Program :=
  let m := multi p in
  if nonempty (rois m) && negb (all_completed p) then (Normal, p)
  else
    let count := List.length (rois m) in
    match mod_ count (List.length (color_cycle m)) with
    | Raise e => (Raised e, p)
    | Ok idx =>
        match pick_name m count idx with
        | Raise e => (Raised e, p)
        | Ok roi_name =>
            let fig1 :=
              draw (set_title ("Draw ROI '" ++ roi_name ++ "'")%string
                              (figure (world p))) in
            let w1 := mkWorld (warnings (world p)) fig1 in
            match index (color_cycle m) idx with
            | Raise e => (Raised e, mkProgram m (objects p) w1)
            | Ok c =>
                match RoiPoly_init interactive (Some (multi_ax m)) c None
                                   false false w1 with
                | (Raise e, w2) => (Raised e, mkProgram m (objects p) w2)
                | (Ok roi, w2) =>
                    (Normal,
                     mkProgram
                       (mkMultiRoi (color_cycle m) (roi_names m)
                          (multi_ax m)
                          (setitem (rois m) roi_name
                                   (List.length (objects p))))
                       (objects p ++ [roi])
                       w2)
                end
            end
        end
    end.

Definition finish (p : Program) : Program :=
  mkProgram (multi p) (objects p)
            (mkWorld (warnings (world p)) (close (figure (world p)))).

(** One event, offered to the handlers of every object in the order
    they were connected. *)
Fixpoint deliver_all (ev : gui_event coord) (objs : list (RoiPoly coord))
    (fig : Figure coord) : list (RoiPoly coord) * Figure coord :=
  match objs with
  | [] => ([], fig)
  | s :: rest =>
      let (s', fig1) := deliver interactive ev (s, fig) in
      let (rest', fig2) := deliver_all ev rest fig1 in
      (s' :: rest', fig2)
  end.

Inductive trigger : Type :=
| add_clicked
| finish_clicked
| mouse (ev : gui_event coord).

(** What the event loop does with one input; nothing reaches a closed
    figure. *)
Definition step (p : Program) (t : trigger) : Program :=
  if closed (figure (world p)) then p
  else
    match t with
    | add_clicked => snd (add p)
    | finish_clicked => finish p
    | mouse ev =>
        let (objs, fig) :=
          deliver_all ev (objects p) (figure (world p)) in
        mkProgram (multi p) objs (mkWorld (warnings (world p)) fig)
    end.

Definition run_multi (ts : list trigger) (p : Program) : Program :=
  fold_left step ts p.

(** The sessions of [rois] that are not completed. *)
Definition in_progress (p : Program) : list nat :=
  filter (fun r => negb (completed_at (objects p) r))
         (values (rois (multi p))).

End Multi.

(* ================================================================= *)
(** ** The selection in the words of the specification *)

(** The values of [image] at the positions where [mask] is true, by
    increasing position. *)
Definition pixels_where_true {A : Type} (mask : list bool) (image : list A)
  : list A :=
  flat_map (fun i => match nth_error mask i, nth_error image i with
                     | Some true, Some v => [v]
                     | _, _ => []
                     end)
           (seq 0 (List.length mask)).

(* ================================================================= *)
(** ** Vocabulary of the properties *)

Section Vocabulary.

Variable coord : Type.
Variable interactive : bool.

(** What holds of the fields while a line is being tracked. *)
Definition drawing_inv (s : RoiPoly coord) : Prop :=
  List.length (x s) = List.length (y s) /\
  (line s <> None ->
   List.length (previous_point s) = 2 /\
   List.length (start_point s) = 2 /\
   x s <> []).

(** The states a session goes through: the one its constructor builds,
    and those the event loop leads to. *)
Inductive reachable : State coord -> Prop :=
| reach_init : forall a c rc sf cf w s w',
    RoiPoly_init interactive a c rc sf cf w = (Ok s, w') ->
    reachable (s, figure w')
| reach_event : forall ev st,
    reachable st -> reachable (dispatch interactive ev st).

(** The filter the module installs is the one in force. *)
Definition always_warns (w : World coord) : Prop :=
  Warnings.action_for Warnings.DeprecationWarning
                      (Warnings.filters (warnings w))
  = Warnings.always.

(** The world with one more warning printed. *)
Definition reported (message : string) (w : World coord) : World coord :=
  mkWorld (Warnings.report message (warnings w)) (figure w).

End Vocabulary.

(* ================================================================= *)
(** ** Concrete inputs *)

Module Fixture.

Local Open Scope Z_scope.

(** A new figure with one axes, numbered 0. *)
Definition new_figure : Figure Z := mkFigure false [] 0 [] [] "" [] 0 0 1.

(** A process just after [import roipoly]. *)
Definition world0 : World Z :=
  mkWorld (import_roipoly Warnings.fresh) new_figure.

Definition at_ (b : option Z) (dbl : bool) (px py : Z) : MouseEvent Z :=
  mkEvent (Some 0%nat) b dbl px py.

Definition click (px py : Z) : gui_event Z :=
  button_press_event (at_ (Some 1) false px py).
Definition double_click (px py : Z) : gui_event Z :=
  button_press_event (at_ (Some 1) true px py).
Definition right_click (px py : Z) : gui_event Z :=
  button_press_event (at_ (Some 3) false px py).
Definition move (px py : Z) : gui_event Z :=
  motion_notify_event (at_ None false px py).

(** The session [RoiPoly(color='b', show_fig=False, close_fig=False)]
    builds on [world0], and the figure after its construction. *)
Definition session0 : RoiPoly Z :=
  mkRoiPoly [] [] [] [] [] None false "b" 0 false 0 1.
Definition figure0 : Figure Z :=
  mkFigure false [] 0 [] [] "" [0%nat; 1%nat] 2 0 1.

(** The session [RoiPoly()] builds on [world0] in a non-interactive
    interpreter ([show_fig] and [close_fig] default to [True]), and
    the figure after its construction. *)
Definition session1 : RoiPoly Z :=
  mkRoiPoly [] [] [] [] [] None false "b" 0 true 0 1.
Definition figure1 : Figure Z :=
  mkFigure false [true] 0 [] [] "" [0%nat; 1%nat] 2 0 1.


(** The completed session after clicks at (1,1), (1,3), (3,3), (3,1)
    and a right click, on [session0]. *)
Definition rectangle : RoiPoly Z :=
  mkRoiPoly [1; 1] [] [3; 1] [1; 1; 3; 3] [1; 3; 3; 1] None true "b"
            0 false 0 1.

(** A containment routine that accepts every point. *)
Definition accept_all (verts : list (Z * Z)) (point : Z * Z) : bool := true.

(** Stand-ins for the numpy routines on integer pixels: the sum and
    the number of the values. *)
Definition sum_of (l : list Z) : Z := fold_right Z.add 0 l.
Definition count_of (l : list Z) : Z := Z.of_nat (List.length l).

Definition no_format (mean std : Z) : string := ""%string.

(** A 1x1 image of value 5. *)
Definition image5 : ndarray Z := mkArray (1%nat, 1%nat) [5].




(** [MultiRoi(roi_names=['A', 'B'])] with the default palette. *)
Definition named_AB : Program Z :=
  MultiRoi_init None (Some ["A"; "B"]%string) default_color_cycle world0.

(** One round: "New ROI", three clicks and a right click. *)
Definition draw_one : list (trigger Z) :=
  [add_clicked Z; mouse (click 1 1); mouse (click 1 3);
   mouse (click 3 3); mouse (right_click 3 3)].

Definition rounds (n : nat) : list (trigger Z) :=
  List.concat (repeat draw_one n).

(** [MultiRoi()] with no names and the default palette. *)
Definition unnamed : Program Z :=
  MultiRoi_init None None default_color_cycle world0.

End Fixture.

(* ================================================================= *)
(** ** Vocabulary of the further properties *)

Section Phases.

Variable coord : Type.

(** The event carried by a GUI event. *)
Definition event_of (ev : gui_event coord) : MouseEvent coord :=
  match ev with
  | motion_notify_event event => event
  | button_press_event event => event
  end.

Definition is_motion (ev : gui_event coord) : bool :=
  match ev with
  | motion_notify_event _ => true
  | button_press_event _ => false
  end.

(** A press the handler takes as a new vertex: inside the session's
    axes, [event.button == 1 and not event.dblclick]. *)
Definition accepted_click (s : RoiPoly coord) (event : MouseEvent coord)
  : bool :=
  in_axes event s && (button_is event 1 && negb (dblclick event)).

(** The events of a drawing phase: pointer motion and accepted clicks. *)
Definition drawing_event (s : RoiPoly coord) (ev : gui_event coord) : bool :=
  match ev with
  | motion_notify_event _ => true
  | button_press_event event => accepted_click s event
  end.

Definition vertex (event : MouseEvent coord) : coord * coord :=
  (xdata event, ydata event).

(** The positions of the button presses of an event list, in order. *)
Definition pressed (evs : list (gui_event coord)) : list (coord * coord) :=
  flat_map (fun ev => match ev with
                      | motion_notify_event _ => []
                      | button_press_event event => [vertex event]
                      end) evs.

(** A session of the axes of [s0] that is open for drawing: its button
    handler is connected, the figure is open, and without a tracked line
    there is no vertex yet. *)
Definition open_for_drawing (s0 : RoiPoly coord) (st : State coord) : Prop :=
  ax (fst st) = ax s0 /\
  connected (cid2 (fst st)) (snd st) = true /\
  closed (snd st) = false /\
  completed (fst st) = false /\
  drawing_inv (fst st) /\
  (line (fst st) = None -> x (fst st) = [] /\ y (fst st) = []).

(** No click has been taken yet. *)
Definition untouched (s : RoiPoly coord) : Prop :=
  completed s = false /\ x s = [] /\ y s = [].

(** The loop is closed and both handlers are gone. *)
Definition frozen (st : State coord) : Prop :=
  completed (fst st) = true /\
  2 <= List.length (x (fst st)) /\
  connected (cid1 (fst st)) (snd st) = false /\
  connected (cid2 (fst st)) (snd st) = false.

(** What a session without a tracked line is. *)
Definition resting_inv (st : State coord) : Prop :=
  drawing_inv (fst st) /\
  (line (fst st) = None -> untouched (fst st) \/ frozen st).

Definition is_finish (t : trigger coord) : bool :=
  match t with
  | finish_clicked _ => true
  | _ => false
  end.

(** The name the k-th session is meant to take: position k of the name
    list, or the number k + 1. *)
Definition name_at (names : option (list string)) (k : nat) : string :=
  match names with
  | Some l => nth k l (str (k + 1))
  | None => str (k + 1)
  end.

(** Every session of the store leaves the figure open on completion. *)
Definition sessions_keep_figure (p : Program coord) : Prop :=
  Forall (fun s => close_figure s = false) (objects p).

End Phases.

Module Fixture2.

Import Fixture.
Local Open Scope Z_scope.

(** A drawing phase: two clicks with a pointer motion in between. *)
Definition two_clicks : list (gui_event Z) :=
  [click 1 1; move 1 2; click 1 3].

(** The state after [two_clicks] on [session0]. *)
Definition drawing_state : State Z :=
  dispatch false (click 1 3)
    (dispatch false (move 1 2)
       (dispatch false (click 1 1) (session0, figure0))).

(** The line tracked in [drawing_state]. *)
Definition second_segment : Line2D Z :=
  mkLine2D [1; 1] [1; 3] (Some "o"%string) "b"%string.

(** Events that miss the axes numbered 0: a press outside every axes
    and a motion over other axes. *)
Definition misses : list (gui_event Z) :=
  [button_press_event (mkEvent None (Some 1) false 9 9);
   motion_notify_event (mkEvent (Some 5%nat) None false 1 1)].

(** A containment routine that accepts the grid points of column 0. *)
Definition first_column (verts : list (Z * Z)) (point : Z * Z) : bool :=
  Z.eqb (fst point) 0.

(** Two images of one row and two columns that differ in column 1. *)
Definition image_a : ndarray Z := mkArray (1%nat, 2%nat) [5; 7].
Definition image_b : ndarray Z := mkArray (1%nat, 2%nat) [5; 9].

(** [MultiRoi(color_cycle=())] *)
Definition no_palette : Program Z := MultiRoi_init None None [] world0.

End Fixture2.

(* ================================================================= *)
(** ** Facts about the session state machine *)

Section SessionFacts.

Variable coord : Type.
Variable interactive : bool.

Lemma index_pair (p : list coord) :
  List.length p = 2 ->
  exists a b, p = [a; b] /\ index p 0 = Ok a /\ index p 1 = Ok b.
Proof.
  destruct p as [|a [|b [|c p]]]; simpl; try discriminate.
  intros _. exists a, b. repeat split.
Qed.

Lemma init_fields a c rc sf cf (w : World coord) s w' :
  RoiPoly_init interactive a c rc sf cf w = (Ok s, w') ->
  x s = [] /\ y s = [] /\ line s = None /\ completed s = false /\
  close_figure s = cf /\
  color s = match rc with Some r => r | None => c end.
Proof.
  unfold RoiPoly_init.
  destruct (match rc with
            | Some _ => deprecation _ (warnings w)
            | None => (Normal, warnings w)
            end) as [o ws].
  destruct o; [|discriminate].
  simpl. intros H. injection H as <- _. simpl. repeat split.
Qed.

Lemma motion_inv (event : MouseEvent coord) (s : RoiPoly coord)
    (fig : Figure coord) :
  drawing_inv s ->
  drawing_inv (fst (snd (motion_notify_callback event (s, fig)))).
Proof.
  intros Hinv. pose proof Hinv as [Hlen Hline].
  unfold motion_notify_callback.
  destruct (in_axes event s); [|exact Hinv].
  destruct (line s) as [l|] eqn:El; [|exact Hinv].
  destruct (button_is_None event || button_is event 1); [|exact Hinv].
  destruct Hline as (Hp & Hs & Hx); [discriminate|].
  destruct (index_pair _ Hp) as (a & b & _ & -> & ->).
  unfold drawing_inv. simpl.
  split; [assumption|]. intros _. repeat split; assumption.
Qed.

Lemma add_vertex_inv (event : MouseEvent coord) (s : RoiPoly coord)
    (fig : Figure coord) :
  drawing_inv s ->
  drawing_inv (fst (snd (add_vertex event (s, fig)))).
Proof.
  intros [Hlen Hline]. unfold add_vertex.
  destruct (line s) as [l|] eqn:El.
  - destruct Hline as (Hp & Hs & Hx); [discriminate|].
    destruct (index_pair _ Hp) as (a & b & _ & -> & ->).
    unfold drawing_inv. simpl. split.
    + rewrite !length_app. simpl. lia.
    + intros _. repeat split; try assumption.
      destruct (x s); discriminate.
  - unfold drawing_inv. simpl. split; [reflexivity|].
    intros _. repeat split. discriminate.
Qed.

Lemma close_loop_normal (l : Line2D coord) (s : RoiPoly coord)
    (fig : Figure coord) :
  drawing_inv s -> line s = Some l ->
  fst (close_loop interactive l (s, fig)) = Normal.
Proof.
  intros [Hlen Hline] El. unfold close_loop.
  destruct Hline as (Hp & Hs & Hx); [congruence|].
  destruct (index_pair _ Hp) as (a & b & _ & -> & ->).
  destruct (index_pair _ Hs) as (c & d & _ & -> & ->).
  destruct ((List.length (x s) =? 1)%nat && (List.length (y s) =? 1)%nat);
    simpl; destruct (negb interactive && close_figure s); reflexivity.
Qed.

Lemma close_loop_inv (l : Line2D coord) (s : RoiPoly coord)
    (fig : Figure coord) :
  drawing_inv s -> line s = Some l ->
  drawing_inv (fst (snd (close_loop interactive l (s, fig)))).
Proof.
  intros [Hlen Hline] El. unfold close_loop.
  destruct Hline as (Hp & Hs & Hx); [congruence|].
  destruct (index_pair _ Hp) as (a & b & _ & -> & ->).
  destruct (index_pair _ Hs) as (c & d & _ & -> & ->).
  destruct ((List.length (x s) =? 1)%nat && (List.length (y s) =? 1)%nat);
    simpl; destruct (negb interactive && close_figure s);
    unfold drawing_inv; simpl;
    (split; [assumption|]); intros H; try (exfalso; apply H; reflexivity);
    repeat split; assumption.
Qed.

Lemma button_press_inv (event : MouseEvent coord) (s : RoiPoly coord)
    (fig : Figure coord) :
  drawing_inv s ->
  drawing_inv
    (fst (snd (button_press_callback interactive event (s, fig)))).
Proof.
  intros Hinv. unfold button_press_callback.
  destruct (in_axes event s); [|exact Hinv].
  destruct (button_is event 1 && negb (dblclick event)).
  - apply add_vertex_inv; assumption.
  - destruct (line s) as [l|] eqn:El; [|exact Hinv].
    destruct (closing_gesture event); [|exact Hinv].
    apply close_loop_inv; assumption.
Qed.

Lemma dispatch_inv ev (st : State coord) :
  drawing_inv (fst st) -> drawing_inv (fst (dispatch interactive ev st)).
Proof.
  intros Hinv. unfold dispatch, deliver. destruct st as [s fig].
  destruct (closed (snd (s, fig))); [exact Hinv|].
  destruct ev as [event|event]; simpl fst; simpl snd.
  - destruct (connected (cid1 s) fig); [|exact Hinv].
    apply motion_inv; assumption.
  - destruct (connected (cid2 s) fig); [|exact Hinv].
    apply button_press_inv; assumption.
Qed.

Lemma reachable_inv (st : State coord) :
  reachable interactive st -> drawing_inv (fst st).
Proof.
  induction 1 as [a c rc sf cf w s w' Hinit | ev st _ IH].
  - destruct (init_fields _ _ _ _ _ _ Hinit) as (Hx & Hy & Hl & _).
    unfold drawing_inv. simpl. split.
    + rewrite Hx, Hy. reflexivity.
    + intros H. contradiction.
  - apply dispatch_inv; assumption.
Qed.

End SessionFacts.

Section SessionClaims.

Variable coord : Type.
Variable interactive : bool.

Lemma closing_gesture_not_single_click (event : MouseEvent coord) :
  closing_gesture event = true ->
  button_is event 1 && negb (dblclick event) = false.
Proof.
  unfold closing_gesture, button_is.
  destruct (button event) as [b|]; [|reflexivity].
  destruct (dblclick event); simpl.
  - intros _. apply andb_false_r.
  - rewrite !andb_true_r, andb_false_r. simpl.
    destruct (Z.eqb_spec b 3) as [->|]; [reflexivity | discriminate].
Qed.

Lemma button_press_closes (event : MouseEvent coord) s fig l :
  in_axes event s = true ->
  line s = Some l ->
  closing_gesture event = true ->
  button_press_callback interactive event (s, fig)
  = close_loop interactive l (s, fig).
Proof.
  intros Hax Hl Hg. unfold button_press_callback.
  rewrite Hax, (closing_gesture_not_single_click _ Hg), Hl, Hg.
  reflexivity.
Qed.

(** C8: when a closing gesture closes the loop of a session that is
    drawing on an open figure, the handler returns normally and the
    figure is closed afterwards exactly when the interpreter is not
    interactive and the session's [close_figure] flag is set. *)
Theorem figure_closed_iff_not_interactive_and_close_figure :
  forall (st : State coord) (event : MouseEvent coord) (l : Line2D coord),
    reachable interactive st ->
    closed (snd st) = false ->
    in_axes event (fst st) = true ->
    line (fst st) = Some l ->
    closing_gesture event = true ->
    let r := button_press_callback interactive event st in
    fst r = Normal /\
    (closed (snd (snd r)) = true <->
     interactive = false /\ close_figure (fst st) = true).
Proof.
  intros [s fig] event l Hreach Hopen Hax Hl Hg r. subst r.
  cbn [fst snd] in *.
  rewrite (@button_press_closes event s fig l Hax Hl Hg).
  pose proof (reachable_inv Hreach) as [Hlen Hline]. cbn [fst snd] in *.
  destruct Hline as (Hp & Hs & Hx); [congruence|].
  destruct (index_pair _ Hp) as (a & b & _ & Ea & Eb).
  destruct (index_pair _ Hs) as (c & d & _ & Ec & Ed).
  unfold close_loop. rewrite Ea, Eb, Ec, Ed.
  destruct ((List.length (x s) =? 1)%nat && (List.length (y s) =? 1)%nat);
    simpl; destruct interactive, (close_figure s); simpl;
    (split; [reflexivity|]); rewrite ?Hopen;
    split; intros H; try discriminate; try (destruct H; discriminate);
    try (split; reflexivity); reflexivity.
Qed.

(** *** After completion *)

Lemma connected_disconnect c d (fig : Figure coord) :
  connected c (mpl_disconnect d fig)
  = connected c fig && negb (Nat.eqb c d).
Proof.
  unfold connected, mpl_disconnect. simpl.
  induction (callbacks fig) as [|k ks IH]; [reflexivity|].
  simpl. destruct (Nat.eqb_spec k d) as [->|Hkd]; simpl.
  - rewrite IH. destruct (Nat.eqb_spec c d) as [->|Hcd]; simpl.
    + rewrite !andb_false_r. reflexivity.
    + rewrite !andb_true_r. reflexivity.
  - rewrite IH. destruct (Nat.eqb_spec c k) as [->|Hck]; simpl.
    + destruct (Nat.eqb_spec k d); [contradiction | reflexivity].
    + reflexivity.
Qed.

Lemma connected_close c (fig : Figure coord) :
  connected c (close fig) = connected c fig.
Proof. reflexivity. Qed.

Lemma connected_draw c (fig : Figure coord) :
  connected c (draw fig) = connected c fig.
Proof. reflexivity. Qed.

Lemma connected_add_line c a l (fig : Figure coord) :
  connected c (add_line a l fig) = connected c fig.
Proof. reflexivity. Qed.

(** Handlers that are disconnected see no event. *)
Lemma disconnected_frozen evs s (fig : Figure coord) :
  connected (cid1 s) fig = false ->
  connected (cid2 s) fig = false ->
  run interactive evs (s, fig) = (s, fig).
Proof.
  intros H1 H2. induction evs as [|ev evs IH]; [reflexivity|].
  simpl. unfold dispatch, deliver. simpl.
  destruct (closed fig); [exact IH|].
  destruct ev; rewrite ?H1, ?H2; exact IH.
Qed.

(** X7: closing a loop of two or more vertices freezes the session:
    it is completed with its vertices as they were, no line is tracked
    any more, both handlers are disconnected, and no later event
    changes anything. *)
Lemma multi_point_completion_freezes :
  forall (st : State coord) (event : MouseEvent coord) (l : Line2D coord) evs,
    reachable interactive st ->
    in_axes event (fst st) = true ->
    line (fst st) = Some l ->
    closing_gesture event = true ->
    List.length (x (fst st)) <> 1 ->
    let st' := snd (button_press_callback interactive event st) in
    completed (fst st') = true /\
    get_roi_coordinates (fst st') = get_roi_coordinates (fst st) /\
    line (fst st') = None /\
    connected (cid1 (fst st')) (snd st') = false /\
    connected (cid2 (fst st')) (snd st') = false /\
    run interactive evs st' = st'.
Proof.
  intros [s fig] event l evs Hreach Hax Hl Hg Hn st'. subst st'.
  cbn [fst snd] in *.
  rewrite (@button_press_closes event s fig l Hax Hl Hg).
  pose proof (reachable_inv Hreach) as [Hlen Hline]. cbn [fst snd] in *.
  destruct Hline as (Hp & Hs & Hx); [congruence|].
  destruct (index_pair _ Hp) as (a & b & _ & Ea & Eb).
  destruct (index_pair _ Hs) as (c & d & _ & Ec & Ed).
  unfold close_loop. rewrite Ea, Eb, Ec, Ed.
  destruct (Nat.eqb_spec (List.length (x s)) 1) as [|_]; [contradiction|].
  cbn [andb].
  assert (H1 : connected (cid1 s)
                 (mpl_disconnect (cid2 s) (mpl_disconnect (cid1 s) fig))
               = false).
  { rewrite !connected_disconnect, Nat.eqb_refl. cbn [negb].
    rewrite andb_false_r. reflexivity. }
  assert (H2 : connected (cid2 s)
                 (mpl_disconnect (cid2 s) (mpl_disconnect (cid1 s) fig))
               = false).
  { rewrite connected_disconnect, Nat.eqb_refl. apply andb_false_r. }
  cbn [fst snd close_figure].
  destruct (negb interactive && close_figure s);
    cbn [fst snd completed line cid1 cid2 get_roi_coordinates x y];
    rewrite ?connected_close, ?connected_draw, ?connected_add_line;
    (split; [reflexivity|]); (split; [reflexivity|]);
    (split; [reflexivity|]); (split; [exact H1|]); (split; [exact H2|]);
    apply disconnected_frozen; cbn [cid1 cid2];
    rewrite ?connected_close, ?connected_draw, ?connected_add_line;
    assumption.
Qed.

End SessionClaims.

Section SessionExamples.

Import Fixture.
Local Open Scope Z_scope.

Lemma session0_constructed :
  RoiPoly_init false None "b" None false false world0
  = (Ok session0, mkWorld (warnings world0) figure0).
Proof. reflexivity. Qed.

(** C1 at a concrete run: a click and a right click complete a
    single-point ROI; the handlers stay connected and the line stays
    set, so the next click appends a vertex to the completed ROI. *)
Theorem completed_single_point_roi_takes_another_vertex :
  let st2 := run false [click 1 1; right_click 1 1] (session0, figure0) in
  let st3 := run false [click 5 5] st2 in
  completed (fst st2) = true /\
  get_roi_coordinates (fst st2) = [(1, 1)] /\
  connected (cid2 (fst st2)) (snd st2) = true /\
  completed (fst st3) = true /\
  get_roi_coordinates (fst st3) = [(1, 1); (5, 5)].
Proof. vm_compute. repeat split. Qed.

Lemma session1_constructed :
  RoiPoly_init false None "b" None true true world0
  = (Ok session1, mkWorld (warnings world0) figure1).
Proof. reflexivity. Qed.

Lemma figure_closed_iff_not_interactive_and_close_figure_witness :
  let st := dispatch false (click 1 1) (session1, figure1) in
  let event := at_ (Some 3) false 1 1 in
  reachable false st /\
  closed (snd st) = false /\
  in_axes event (fst st) = true /\
  line (fst st)
  = Some (mkLine2D [1; 1] [1; 1] (Some "o"%string) "b"%string) /\
  closing_gesture event = true /\
  fst (button_press_callback false event st) = Normal /\
  (closed (snd (snd (button_press_callback false event st))) = true <->
   false = false /\ close_figure (fst st) = true).
Proof.
  intros st event.
  assert (Hr : reachable false st).
  { apply reach_event.
    exact (reach_init false None "b" None true true world0
                      session1_constructed). }
  split; [exact Hr|].
  split; [reflexivity|]. split; [reflexivity|]. split; [reflexivity|].
  split; [reflexivity|].
  apply (@figure_closed_iff_not_interactive_and_close_figure Z false
           st event
           (mkLine2D [1; 1] [1; 1] (Some "o"%string) "b"%string));
    [exact Hr | reflexivity | reflexivity | reflexivity | reflexivity].
Defined.

(** The same gesture in both settings of the interpreter. *)
Lemma right_click_closes_only_when_not_interactive :
  closed (snd (run false [click 1 1; click 1 3; click 3 3; right_click 3 3]
                   (session1, figure1))) = true /\
  closed (snd (run true [click 1 1; click 1 3; click 3 3; right_click 3 3]
                   (session1, figure1))) = false /\
  closed (snd (run false [click 1 1; click 1 3; click 3 3; right_click 3 3]
                   (session0, figure0))) = false.
Proof. vm_compute. repeat split. Qed.

End SessionExamples.

(* ================================================================= *)
(** ** Facts about the mask and the statistics *)

Section MaskFacts.

Variable coord : Type.
Variable contains_point : list (coord * coord) -> Z * Z -> bool.

Lemma combine_app {A B : Type} (l1 l1' : list A) (l2 l2' : list B) :
  List.length l1 = List.length l2 ->
  combine (l1 ++ l1') (l2 ++ l2') = combine l1 l2 ++ combine l1' l2'.
Proof.
  revert l2. induction l1 as [|a l1 IH]; intros [|b l2] H;
    try discriminate; [reflexivity|].
  simpl. rewrite IH; [reflexivity|]. simpl in H. lia.
Qed.

Lemma combine_rev {A B : Type} (l1 : list A) (l2 : list B) :
  List.length l1 = List.length l2 ->
  combine (rev l1) (rev l2) = rev (combine l1 l2).
Proof.
  revert l2. induction l1 as [|a l1 IH]; intros [|b l2] H;
    try discriminate; [reflexivity|].
  simpl in *. rewrite combine_app, IH; try reflexivity; try lia.
  rewrite !length_rev. lia.
Qed.

(** C4, as the code has it: for a session with n >= 1 vertices (the
    two coordinate lists of equal length), [get_mask] hands the
    containment test the first vertex followed by the reverse of ALL
    the vertices, v0, v(n-1), ..., v1, v0: n + 1 entries, the first
    vertex being repeated at the end. *)
Theorem poly_verts_first_then_all_reversed :
  forall (self : RoiPoly coord) (v0 : coord * coord)
         (vs : list (coord * coord)),
    List.length (x self) = List.length (y self) ->
    get_roi_coordinates self = v0 :: vs ->
    poly_verts self = Ok (v0 :: rev vs ++ [v0]) /\
    poly_verts self = Ok (v0 :: rev (get_roi_coordinates self)).
Proof.
  intros self v0 vs Hlen Hc. unfold poly_verts.
  rewrite (combine_rev _ _ Hlen).
  fold (get_roi_coordinates self). rewrite Hc.
  unfold get_roi_coordinates in Hc.
  destruct (x self) as [|x0 xs]; [discriminate|].
  destruct (y self) as [|y0 ys]; [discriminate|].
  simpl in Hc. injection Hc as <- _. simpl. split; reflexivity.
Qed.

Lemma length_arange n : List.length (arange n) = n.
Proof. unfold arange. rewrite length_map, length_seq. reflexivity. Qed.

Lemma length_flat_map_const {A B : Type} (f : A -> list B) l n :
  (forall a, List.length (f a) = n) ->
  List.length (flat_map f l) = List.length l * n.
Proof.
  intros Hf. induction l as [|a l IH]; [reflexivity|].
  simpl. rewrite length_app, IH, Hf. reflexivity.
Qed.

Lemma length_meshgrid_points nx ny :
  List.length (meshgrid_points nx ny) = ny * nx.
Proof.
  unfold meshgrid_points.
  rewrite (length_flat_map_const _ _ (n := nx)).
  - rewrite length_arange. reflexivity.
  - intros row. rewrite length_map. apply length_arange.
Qed.

(** The mask has the shape of the image, with one verdict per pixel. *)
Lemma get_mask_shape {A : Type} (self : RoiPoly coord)
    (image : ndarray A) (mask : ndarray bool) :
  get_mask contains_point self image = Ok mask ->
  shape mask = shape image /\
  List.length (flat mask) = fst (shape image) * snd (shape image).
Proof.
  unfold get_mask. destruct (shape image) as [ny nx].
  destruct (poly_verts self) as [verts|e]; [|discriminate].
  intros H. injection H as <-. simpl. split; [reflexivity|].
  unfold contains_points. rewrite length_map.
  apply length_meshgrid_points.
Qed.

End MaskFacts.

Section MaskPixels.

Variable coord : Type.
Variable contains_point : list (coord * coord) -> Z * Z -> bool.

Lemma nth_error_flat_map_const {A B : Type} (f : A -> list B) n :
  (forall a, List.length (f a) = n) ->
  forall l i j a,
    nth_error l i = Some a -> j < n ->
    nth_error (flat_map f l) (i * n + j) = nth_error (f a) j.
Proof.
  intros Hf. induction l as [|a0 l IH]; intros i j a Hi Hj.
  - destruct i; discriminate.
  - destruct i as [|i]; simpl in *.
    + injection Hi as ->. apply nth_error_app1. rewrite Hf. exact Hj.
    + rewrite nth_error_app2 by (rewrite Hf; lia).
      rewrite Hf. replace (n + i * n + j - n) with (i * n + j) by lia.
      apply IH; assumption.
Qed.

Lemma nth_error_arange n i :
  i < n -> nth_error (arange n) i = Some (Z.of_nat i).
Proof.
  intros Hi. unfold arange. rewrite nth_error_map.
  rewrite (nth_error_nth' _ 0) by (rewrite length_seq; exact Hi).
  rewrite seq_nth by exact Hi. reflexivity.
Qed.

(** The mask entry of row [row] and column [col] is the verdict of the
    containment routine on the grid point [(col, row)]. *)
Lemma get_mask_pixel {A : Type} (self : RoiPoly coord) (image : ndarray A)
    (mask : ndarray bool) verts row col :
  get_mask contains_point self image = Ok mask ->
  poly_verts self = Ok verts ->
  row < fst (shape image) -> col < snd (shape image) ->
  nth_error (flat mask) (row * snd (shape image) + col)
  = Some (contains_point verts (Z.of_nat col, Z.of_nat row)).
Proof.
  unfold get_mask. destruct (shape image) as [ny nx]. intros Hm Hv.
  rewrite Hv in Hm. injection Hm as <-. simpl. intros Hr Hc.
  unfold contains_points, meshgrid_points. rewrite nth_error_map.
  rewrite (nth_error_flat_map_const
             (fun r => map (fun c => (c, r)) (arange nx)) (n := nx))
    with (a := Z.of_nat row).
  - rewrite nth_error_map, (nth_error_arange Hc). reflexivity.
  - intros r. rewrite length_map. apply length_arange.
  - apply nth_error_arange. exact Hr.
  - exact Hc.
Qed.

End MaskPixels.

Section MaskExamples.

Import Fixture.
Local Open Scope Z_scope.

Lemma rectangle_drawn :
  run false [click 1 1; move 1 2; click 1 3; click 3 3; click 3 1;
             right_click 2 2] (session0, figure0)
  = (rectangle, snd (run false [click 1 1; move 1 2; click 1 3;
                                click 3 3; click 3 1; right_click 2 2]
                         (session0, figure0))).
Proof. vm_compute. reflexivity. Qed.

(** C4 as stated fails on the rectangle: the list handed to the
    containment test has five entries, the first vertex twice. *)
Lemma poly_verts_rectangle_repeats_first_vertex :
  get_roi_coordinates rectangle = [(1, 1); (1, 3); (3, 3); (3, 1)] /\
  poly_verts rectangle = Ok [(1, 1); (3, 1); (3, 3); (1, 3); (1, 1)] /\
  poly_verts rectangle <> Ok ((1, 1) :: rev [(1, 3); (3, 3); (3, 1)]).
Proof.
  split; [reflexivity|]. split; [reflexivity|]. discriminate.
Qed.

Lemma poly_verts_first_then_all_reversed_witness :
  List.length (x rectangle) = List.length (y rectangle) /\
  get_roi_coordinates rectangle = (1, 1) :: [(1, 3); (3, 3); (3, 1)] /\
  poly_verts rectangle
  = Ok ((1, 1) :: rev [(1, 3); (3, 3); (3, 1)] ++ [(1, 1)]) /\
  poly_verts rectangle = Ok ((1, 1) :: rev (get_roi_coordinates rectangle)).
Proof.
  split; [reflexivity|]. split; [reflexivity|].
  apply (@poly_verts_first_then_all_reversed Z rectangle (1, 1)
           [(1, 3); (3, 3); (3, 1)]); reflexivity.
Defined.

End MaskExamples.

Section SingleClick.

Variable coord : Type.
Variable interactive : bool.

Lemma connected_after_init a c rc sf cf (w : World coord) s w' :
  RoiPoly_init interactive a c rc sf cf w = (Ok s, w') ->
  connected (cid1 s) (figure w') = true /\
  connected (cid2 s) (figure w') = true /\
  closed (figure w') = closed (figure w).
Proof.
  unfold RoiPoly_init.
  destruct (match rc with
            | Some _ => deprecation _ (warnings w)
            | None => (Normal, warnings w)
            end) as [o ws].
  destruct o; [|discriminate].
  simpl. intros H. injection H as <- <-. unfold connected.
  destruct sf; [unfold show_figure; destruct interactive|]; simpl;
    rewrite !existsb_app; simpl; rewrite !Nat.eqb_refl;
    rewrite ?orb_true_r; repeat split; reflexivity.
Qed.

(** One accepted click and a closing gesture on a new session: the
    session is completed with the one vertex, and the list [get_mask]
    hands to the containment test is that vertex twice. *)
Lemma single_click_then_closing_gesture :
  forall a c rc sf cf (w : World coord) s w'
         (click closing : MouseEvent coord),
    RoiPoly_init interactive a c rc sf cf w = (Ok s, w') ->
    closed (figure w) = false ->
    in_axes click s = true ->
    button_is click 1 && negb (dblclick click) = true ->
    in_axes closing s = true ->
    closing_gesture closing = true ->
    let st := run interactive
                  [button_press_event click; button_press_event closing]
                  (s, figure w') in
    completed (fst st) = true /\
    get_roi_coordinates (fst st) = [(xdata click, ydata click)] /\
    poly_verts (fst st)
    = Ok [(xdata click, ydata click); (xdata click, ydata click)].
Proof.
  intros a c rc sf cf w s w' click closing Hinit Hopen Hin1 Hb1 Hin2 Hg st.
  destruct (connected_after_init _ _ _ _ _ _ Hinit) as (_ & Hc2 & Hcl).
  destruct (init_fields _ _ _ _ _ _ _ Hinit) as (_ & _ & Hl & _).
  rewrite Hopen in Hcl.
  assert (E1 : dispatch interactive (button_press_event click)
                 (s, figure w')
               = snd (add_vertex click (s, figure w'))).
  { unfold dispatch, deliver. cbn [fst snd]. rewrite Hcl, Hc2.
    unfold button_press_callback. rewrite Hin1, Hb1. reflexivity. }
  subst st. unfold run. cbn [fold_left]. rewrite E1.
  unfold add_vertex. rewrite Hl. cbn [snd].
  set (s1 := mkRoiPoly _ _ _ _ _ _ _ _ _ _ _ _).
  set (fig1 := draw _).
  assert (E2 : dispatch interactive (button_press_event closing) (s1, fig1)
               = snd (close_loop interactive
                        (mkLine2D [xdata click; xdata click]
                                  [ydata click; ydata click]
                                  (Some "o"%string) (color s))
                        (s1, fig1))).
  { unfold dispatch, deliver. cbn [fst snd].
    change (closed fig1) with (closed (figure w')).
    change (connected (cid2 s1) fig1) with (connected (cid2 s) (figure w')).
    rewrite Hcl, Hc2. unfold button_press_callback.
    change (in_axes closing s1) with (in_axes closing s).
    rewrite Hin2, (closing_gesture_not_single_click _ Hg), Hg.
    reflexivity. }
  rewrite E2. unfold close_loop. subst s1. cbn.
  destruct (negb interactive && close_figure s); cbn;
    repeat split; reflexivity.
Qed.

End SingleClick.

(* ================================================================= *)
(** ** Facts about construction and the deprecated aliases *)

Section Deprecation.

Variable coord : Type.
Variable contains_point : list (coord * coord) -> Z * Z -> bool.
Variable pixel : Type.
Variable scalar : Type.
Variable np_mean : list pixel -> scalar.
Variable np_std : list pixel -> scalar.
Variable format_stats : scalar -> scalar -> string.
Variable interactive : bool.


Lemma reported_always_warns message (w : World coord) :
  always_warns w -> always_warns (reported message w).
Proof. intros H. exact H. Qed.

Lemma deprecation_always message (w : World coord) :
  always_warns w ->
  deprecation message (warnings w)
  = (Normal, Warnings.report message (warnings w)).
Proof.
  unfold always_warns, deprecation, Warnings.warn. intros ->. reflexivity.
Qed.

Lemma warned_always message (w : World coord) :
  always_warns w -> warned message w = (Normal, reported message w).
Proof.
  intros H. unfold warned. rewrite (deprecation_always _ H). reflexivity.
Qed.



End Deprecation.

Section DeprecationExamples.

Import Fixture.
Local Open Scope Z_scope.





End DeprecationExamples.

(* ================================================================= *)
(** ** Facts about the multi-ROI orchestrator *)

Section MultiFacts.

Variable coord : Type.
Variable interactive : bool.

Ltac break_match :=
  match goal with
  | |- context [match ?t with _ => _ end] => destruct t eqn:?
  | |- context [if ?t then _ else _] => destruct t eqn:?
  end.

(** [completed] is never reset. *)
Lemma close_loop_completed l (s : RoiPoly coord) (fig : Figure coord) :
  completed s = true ->
  completed (fst (snd (close_loop interactive l (s, fig)))) = true.
Proof.
  intros Hc. unfold close_loop.
  destruct ((List.length (x s) =? 1)%nat && (List.length (y s) =? 1)%nat).
  - cbn [fst snd]. destruct (negb interactive && _); reflexivity.
  - destruct (index (previous_point s) 0), (index (start_point s) 0),
      (index (previous_point s) 1), (index (start_point s) 1);
      cbn [fst snd]; try exact Hc;
      destruct (negb interactive && _); reflexivity.
Qed.

Lemma deliver_completed ev (s : RoiPoly coord) (fig : Figure coord) :
  completed s = true ->
  completed (fst (deliver interactive ev (s, fig))) = true.
Proof.
  intros Hc. unfold deliver. cbn [fst snd].
  destruct ev as [event|event].
  - destruct (connected (cid1 s) fig); [|exact Hc].
    unfold motion_notify_callback.
    repeat (break_match; cbn [fst snd completed]); exact Hc.
  - destruct (connected (cid2 s) fig); [|exact Hc].
    unfold button_press_callback.
    destruct (in_axes event s); [|exact Hc].
    destruct (button_is event 1 && negb (dblclick event)).
    + unfold add_vertex.
      repeat (break_match; cbn [fst snd completed]); exact Hc.
    + destruct (line s) as [l|]; [|exact Hc].
      destruct (closing_gesture event); [|exact Hc].
      apply close_loop_completed. exact Hc.
Qed.

Lemma deliver_all_completed ev (objs : list (RoiPoly coord)) :
  forall (fig : Figure coord) r,
    completed_at objs r = true ->
    completed_at (fst (deliver_all interactive ev objs fig)) r = true.
Proof.
  induction objs as [|s rest IH]; intros fig r H; [exact H|].
  simpl.
  destruct (deliver interactive ev (s, fig)) as [s' fig1] eqn:Es.
  destruct (deliver_all interactive ev rest fig1) as [rest' fig2] eqn:Er.
  destruct r as [|r]; unfold completed_at in *; simpl in *.
  - pose proof (deliver_completed ev s fig H) as Hs.
    rewrite Es in Hs. exact Hs.
  - specialize (IH fig1 r H). rewrite Er in IH. exact IH.
Qed.

Lemma filter_length_le {A : Type} (f g : A -> bool) (l : list A) :
  (forall a, f a = true -> g a = true) ->
  List.length (filter f l) <= List.length (filter g l).
Proof.
  intros Hfg. induction l as [|a l IH]; [apply Nat.le_refl|].
  simpl. destruct (f a) eqn:Ef.
  - rewrite (Hfg a Ef). simpl. lia.
  - destruct (g a); simpl; lia.
Qed.

Lemma all_completed_in_progress (p : Program coord) :
  all_completed p = true <-> in_progress p = [].
Proof.
  unfold all_completed, in_progress.
  induction (values (rois (multi p))) as [|r rs IH]; simpl.
  - split; reflexivity.
  - destruct (completed_at (objects p) r); simpl.
    + exact IH.
    + split; discriminate.
Qed.

(** An entry written into a dict none of whose old values passes a
    test leaves at most that entry passing it. *)
Lemma filter_values_setitem (f : nat -> bool) (d : dict nat) k v :
  filter f (values d) = [] ->
  List.length (filter f (values (setitem d k v))) <= 1.
Proof.
  unfold values. induction d as [|[k' v'] d IH]; simpl; intros H.
  - destruct (f v); simpl; lia.
  - destruct (f v') eqn:Ev'; [discriminate|].
    destruct (String.eqb k' k); simpl.
    + rewrite H. destruct (f v); simpl; lia.
    + rewrite Ev'. apply IH. exact H.
Qed.

Lemma completed_at_app (objs : list (RoiPoly coord)) roi r :
  completed_at objs r = true -> completed_at (objs ++ [roi]) r = true.
Proof.
  unfold completed_at. destruct (nth_error objs r) as [s|] eqn:E;
    [|discriminate].
  rewrite nth_error_app1 by (apply nth_error_Some; congruence).
  rewrite E. trivial.
Qed.

(** The three ways [add] can end. *)
Lemma add_cases (p : Program coord) :
  add interactive p = (Normal, p)
  \/ (exists e w,
        add interactive p = (Raised e, mkProgram (multi p) (objects p) w))
  \/ (all_completed p = true /\
      exists roi_name roi w,
        add interactive p
        = (Normal,
           mkProgram
             (mkMultiRoi (color_cycle (multi p)) (roi_names (multi p))
                (multi_ax (multi p))
                (setitem (rois (multi p)) roi_name
                         (List.length (objects p))))
             (objects p ++ [roi]) w)).
Proof.
  unfold add.
  destruct (nonempty (rois (multi p)) && negb (all_completed p)) eqn:Eg;
    [left; reflexivity | right].
  assert (Hall : all_completed p = true).
  { destruct (all_completed p) eqn:Ea; [reflexivity|].
    rewrite andb_true_r in Eg. unfold all_completed in Ea.
    destruct (rois (multi p)); simpl in *; discriminate. }
  destruct (mod_ _ _) as [idx|e];
    [|left; exists e, (world p); destruct p; reflexivity].
  destruct (pick_name _ _ _) as [roi_name|e];
    [|left; exists e, (world p); destruct p; reflexivity].
  destruct (index _ _) as [c|e]; [|left; eexists; eexists; reflexivity].
  right. split; [exact Hall|]. simpl.
  eexists. eexists. eexists. reflexivity.
Qed.

Lemma add_in_progress (p : Program coord) :
  List.length (in_progress p) <= 1 ->
  List.length (in_progress (snd (add interactive p))) <= 1.
Proof.
  intros Hp.
  destruct (add_cases p) as [E | [(e & w & E) | (Hall & n & roi & w & E)]];
    rewrite E; simpl; try exact Hp.
  unfold in_progress. simpl.
  apply filter_values_setitem.
  apply all_completed_in_progress in Hall. unfold in_progress in Hall.
  revert Hall. induction (values (rois (multi p))) as [|r rs IH];
    [reflexivity|].
  simpl. destruct (completed_at (objects p) r) eqn:Er; simpl;
    [|discriminate].
  rewrite (completed_at_app _ roi _ Er). simpl. exact IH.
Qed.

Lemma step_in_progress (p : Program coord) t :
  List.length (in_progress p) <= 1 ->
  List.length (in_progress (step interactive p t)) <= 1.
Proof.
  intros Hp. unfold step.
  destruct (closed (figure (world p))); [exact Hp|].
  destruct t as [| |ev].
  - apply add_in_progress. exact Hp.
  - exact Hp.
  - destruct (deliver_all interactive ev (objects p) (figure (world p)))
      as [objs fig] eqn:Ed.
    unfold in_progress in *. simpl.
    eapply Nat.le_trans; [|exact Hp].
    apply filter_length_le. intros r Hr.
    destruct (completed_at (objects p) r) eqn:Ec; [|reflexivity].
    pose proof (deliver_all_completed ev (objects p)
                  (figure (world p)) r Ec) as H.
    rewrite Ed in H. simpl in H. rewrite H in Hr. discriminate.
Qed.

Lemma run_multi_in_progress ts :
  forall p : Program coord,
    List.length (in_progress p) <= 1 ->
    List.length (in_progress (run_multi interactive ts p)) <= 1.
Proof.
  induction ts as [|t ts IH]; intros p Hp; [exact Hp|].
  simpl. apply IH. apply step_in_progress. exact Hp.
Qed.

Lemma add_ignored_while_in_progress (p : Program coord) :
  in_progress p <> [] -> add interactive p = (Normal, p).
Proof.
  intros Hp. unfold add.
  assert (Ha : all_completed p = false).
  { destruct (all_completed p) eqn:Ea; [|reflexivity].
    apply all_completed_in_progress in Ea. contradiction. }
  rewrite Ha. unfold all_completed in Ha.
  destruct (rois (multi p)); [discriminate | reflexivity].
Qed.

(** The first [add] on a new collection starts a session. *)
Lemma add_to_new (p : Program coord) :
  rois (multi p) = [] ->
  objects p = [] ->
  color_cycle (multi p) <> [] ->
  exists roi_name roi w,
    completed roi = false /\
    add interactive p
    = (Normal,
       mkProgram
         (mkMultiRoi (color_cycle (multi p)) (roi_names (multi p))
            (multi_ax (multi p)) [(roi_name, 0)])
         [roi] w).
Proof.
  intros Hr Ho Hc. unfold add. rewrite Hr, Ho. cbn [nonempty andb].
  destruct (color_cycle (multi p)) as [|c colors] eqn:Ec;
    [contradiction|].
  unfold mod_.
  change (List.length (c :: colors)) with (S (List.length colors)).
  change (@List.length (string * nat) []) with 0.
  cbv iota beta. rewrite Nat.Div0.mod_0_l.
  assert (Hn : exists n, pick_name (multi p) 0 0 = Ok n).
  { unfold pick_name. destruct (roi_names (multi p)) as [[|n ns]|];
      eexists; reflexivity. }
  destruct Hn as [n ->]. simpl.
  eexists. eexists. eexists. split; [|reflexivity]. reflexivity.
Qed.

(** C2: in a collection built by [MultiRoi] with a non-empty palette
    and driven by any sequence of button clicks and mouse events, at
    most one session of [rois] is not completed; while one is, [add]
    returns without changing anything; and two [add] calls in a row
    on the new collection leave exactly one session. *)
Theorem at_most_one_session_in_progress :
  forall (ax_arg : option nat) (names : option (list string))
         (colors : list string) (w : World coord)
         (ts : list (trigger coord)),
    colors <> [] ->
    let p0 := MultiRoi_init ax_arg names colors w in
    let p := run_multi interactive ts p0 in
    List.length (in_progress p) <= 1
    /\ (in_progress p <> [] -> add interactive p = (Normal, p))
    /\ List.length
         (rois (multi (snd (add interactive (snd (add interactive p0))))))
       = 1.
Proof.
  intros ax_arg names colors w ts Hc p0 p.
  split; [|split].
  - apply run_multi_in_progress. simpl. lia.
  - apply add_ignored_while_in_progress.
  - destruct (add_to_new p0 eq_refl eq_refl Hc)
      as (roi_name & roi & w1 & Hroi & E).
    rewrite E. cbn [snd].
    rewrite add_ignored_while_in_progress; [reflexivity|].
    unfold in_progress, completed_at. simpl. rewrite Hroi. discriminate.
Qed.

(** *** Names *)

(** While the count is below the palette length the name is taken by
    position, then numbered from one. *)
Lemma pick_name_within_palette (m : MultiRoi) (count : nat) :
  count < List.length (color_cycle m) ->
  mod_ count (List.length (color_cycle m)) = Ok count /\
  pick_name m count count
  = Ok match roi_names m with
       | Some names => nth count names (str (count + 1))
       | None => str (count + 1)
       end.
Proof.
  intros Hlt. split.
  - unfold mod_. destruct (List.length (color_cycle m)) eqn:E; [lia|].
    rewrite Nat.mod_small by lia. reflexivity.
  - unfold pick_name. destruct (roi_names m) as [names|]; [|reflexivity].
    destruct (Nat.ltb_spec count (List.length names)) as [Hn|Hn].
    + unfold index. destruct (nth_error names count) eqn:E.
      * rewrite (nth_error_nth _ _ _ E). reflexivity.
      * apply nth_error_None in E. lia.
    + rewrite nth_overflow by lia. reflexivity.
Qed.

End MultiFacts.

Section MultiExamples.

Import Fixture.
Local Open Scope Z_scope.

(** The example of the specification: three additions with the names
    A and B and the default palette. *)
Lemma three_rois_named_A_B_3 :
  keys (rois (multi (run_multi false (rounds 3) named_AB)))
  = ["A"; "B"; "3"]%string.
Proof. vm_compute. reflexivity. Qed.

(** C3 at a concrete run: with the names A and B and the default
    palette of seven colours, the eighth addition (count 7) is named
    by position 7 mod 7 = 0 of the name list.  It takes the name "A"
    instead of "8" and replaces the first session in [rois]. *)
Theorem eighth_roi_takes_the_first_name :
  let p7 := run_multi false (rounds 7) named_AB in
  let p8 := run_multi false draw_one p7 in
  rois (multi p7)
  = [("A", 0); ("B", 1); ("3", 2); ("4", 3); ("5", 4); ("6", 5);
     ("7", 6)]%string%nat
  /\ all_completed p7 = true
  /\ pick_name (multi p7) 7 (7 mod 7) = Ok "A"%string
  /\ List.length (objects p8) = 8%nat
  /\ rois (multi p8)
     = [("A", 7); ("B", 1); ("3", 2); ("4", 3); ("5", 4); ("6", 5);
        ("7", 6)]%string%nat.
Proof. vm_compute. repeat split. Qed.

(** The same defect seen from [MultiRoi]: a first ROI completed with a
    single point keeps its handlers, so the first click of the second
    ROI is also appended to the first. *)
Lemma single_point_roi_collects_clicks_of_next_roi :
  let p1 := run_multi false
              [add_clicked Z; mouse (click 1 1); mouse (right_click 1 1)]
              unnamed in
  let p2 := run_multi false [add_clicked Z; mouse (click 5 5)] p1 in
  rois (multi p2) = [("1", 0); ("2", 1)]%string%nat
  /\ map (@completed Z) (objects p1) = [true]
  /\ map (@get_roi_coordinates Z) (objects p1) = [[(1, 1)]]
  /\ map (@get_roi_coordinates Z) (objects p2)
     = [[(1, 1); (5, 5)]; [(5, 5)]].
Proof. vm_compute. repeat split. Qed.

Lemma at_most_one_session_in_progress_witness :
  default_color_cycle <> [] /\
  let p0 := named_AB in
  let p := run_multi false [add_clicked Z; mouse (click 1 1);
                            add_clicked Z] p0 in
  (List.length (in_progress p) <= 1)%nat
  /\ (in_progress p <> [] -> add false p = (Normal, p))
  /\ List.length (rois (multi (snd (add false (snd (add false p0))))))
     = 1%nat.
Proof.
  split; [discriminate|].
  apply (@at_most_one_session_in_progress Z false None
           (Some ["A"; "B"]%string) default_color_cycle world0
           [add_clicked Z; mouse (click 1 1); add_clicked Z]).
  discriminate.
Defined.

End MultiExamples.

(* ================================================================= *)
(** ** Further facts about the session *)

Section Drawing.

Variable coord : Type.
Variable interactive : bool.

Ltac case_match :=
  match goal with
  | |- context [match ?t with _ => _ end] => destruct t eqn:?
  | |- context [if ?t then _ else _] => destruct t eqn:?
  end.

(** The motion handler touches nothing but the tracked line and the
    draw count. *)
Lemma motion_frame (event : MouseEvent coord) (s : RoiPoly coord)
    (fig : Figure coord) :
  let st' := snd (motion_notify_callback event (s, fig)) in
  x (fst st') = x s /\ y (fst st') = y s /\
  completed (fst st') = completed s /\
  ax (fst st') = ax s /\ cid1 (fst st') = cid1 s /\ cid2 (fst st') = cid2 s /\
  close_figure (fst st') = close_figure s /\
  previous_point (fst st') = previous_point s /\
  start_point (fst st') = start_point s /\
  closed (snd st') = closed fig /\ callbacks (snd st') = callbacks fig /\
  (line (fst st') = None <-> line s = None) /\
  (line s = None -> st' = (s, fig)).
Proof.
  unfold motion_notify_callback.
  repeat (case_match; cbn [fst snd]); cbn;
    repeat split; intros; try reflexivity; try assumption;
    try discriminate; try congruence.
Qed.

Lemma in_axes_same_ax (event : MouseEvent coord) (s s' : RoiPoly coord) :
  ax s' = ax s -> in_axes event s' = in_axes event s.
Proof. unfold in_axes. intros ->. reflexivity. Qed.

Lemma init_open_for_drawing a c rc sf cf (w : World coord) s w' :
  RoiPoly_init interactive a c rc sf cf w = (Ok s, w') ->
  closed (figure w) = false ->
  open_for_drawing s (s, figure w').
Proof.
  intros Hinit Hopen.
  destruct (@connected_after_init _ _ _ _ _ _ _ _ _ _ Hinit) as (_ & Hc2 & Hcl).
  destruct (@init_fields _ _ _ _ _ _ _ _ _ _ Hinit) as (Hx & Hy & Hl & Hcomp & _).
  unfold open_for_drawing. cbn [fst snd].
  repeat split; try assumption; congruence.
Qed.

Lemma click_step (s0 : RoiPoly coord) (st : State coord)
    (event : MouseEvent coord) :
  open_for_drawing s0 st ->
  accepted_click s0 event = true ->
  let st' := dispatch interactive (button_press_event event) st in
  open_for_drawing s0 st' /\
  get_roi_coordinates (fst st')
  = get_roi_coordinates (fst st) ++ [vertex event] /\
  line (fst st') <> None.
Proof.
  destruct st as [s fig].
  intros (Hax & Hc & Hcl & Hcomp & Hinv & Hnone) Hacc st'.
  cbn [fst snd] in *.
  apply andb_prop in Hacc as [Hin Hb].
  assert (E : st' = snd (add_vertex event (s, fig))).
  { subst st'. unfold dispatch, deliver. cbn [fst snd]. rewrite Hcl, Hc.
    unfold button_press_callback.
    rewrite (@in_axes_same_ax event s0 s Hax), Hin, Hb. reflexivity. }
  pose proof (@add_vertex_inv _ event s fig Hinv) as Hinv'.
  rewrite <- E in Hinv'. clearbody st'. subst st'.
  destruct Hinv as [Hlen Hline].
  unfold add_vertex in *. destruct (line s) as [l|] eqn:El.
  - destruct Hline as (Hp & _ & _); [discriminate|].
    destruct (index_pair _ Hp) as (p & q & _ & Ep & Eq).
    rewrite Ep, Eq in *. cbn [fst snd] in *.
    unfold open_for_drawing, get_roi_coordinates, vertex.
    cbn [fst snd x y line ax cid2 completed].
    rewrite (combine_app _ _ _ _ Hlen).
    split; [|split; [reflexivity | discriminate]].
    repeat (split; [assumption|]). discriminate.
  - destruct (Hnone eq_refl) as [Hx Hy]. cbn [fst snd] in *.
    unfold open_for_drawing, get_roi_coordinates, vertex.
    cbn [fst snd x y line ax cid2 completed].
    rewrite Hx, Hy.
    split; [|split; [reflexivity | discriminate]].
    repeat (split; [assumption|]). discriminate.
Qed.

Lemma motion_step (s0 : RoiPoly coord) (st : State coord)
    (event : MouseEvent coord) :
  open_for_drawing s0 st ->
  let st' := dispatch interactive (motion_notify_event event) st in
  open_for_drawing s0 st' /\
  get_roi_coordinates (fst st') = get_roi_coordinates (fst st) /\
  (line (fst st') = None <-> line (fst st) = None).
Proof.
  destruct st as [s fig].
  intros (Hax & Hc & Hcl & Hcomp & Hinv & Hnone) st'.
  cbn [fst snd] in *. subst st'. unfold dispatch, deliver. cbn [fst snd].
  rewrite Hcl.
  destruct (connected (cid1 s) fig);
    [|unfold open_for_drawing; cbn [fst snd]; tauto].
  pose proof (@motion_inv _ event s fig Hinv) as Hinv'.
  destruct (motion_frame event s fig)
    as (Hx & Hy & Hco & Ha & _ & H2 & _ & _ & _ & Hcl' & Hcb & Hl & _).
  split; [|split; [|exact Hl]].
  - unfold open_for_drawing, connected in *.
    rewrite Hx, Hy, Hco, Ha, H2, Hcl', Hcb.
    repeat (split; [assumption|]).
    intros H. apply Hnone, Hl, H.
  - unfold get_roi_coordinates. rewrite Hx, Hy. reflexivity.
Qed.

Lemma drawing_run (s0 : RoiPoly coord) evs :
  forall st : State coord,
    open_for_drawing s0 st ->
    forallb (drawing_event s0) evs = true ->
    let st' := run interactive evs st in
    open_for_drawing s0 st' /\
    get_roi_coordinates (fst st')
    = get_roi_coordinates (fst st) ++ pressed evs /\
    (line (fst st) <> None \/ pressed evs <> [] -> line (fst st') <> None).
Proof.
  induction evs as [|ev evs IH]; intros st Hopen Hevs; cbv zeta.
  - cbn [run fold_left pressed flat_map]. rewrite app_nil_r.
    split; [exact Hopen|]. split; [reflexivity|].
    intros [H|H]; [exact H | contradiction].
  - cbn [forallb] in Hevs. apply andb_prop in Hevs as [Hev Hevs].
    change (run interactive (ev :: evs) st)
      with (run interactive evs (dispatch interactive ev st)).
    destruct ev as [event|event]; cbn [drawing_event] in Hev.
    + destruct (@motion_step s0 st event Hopen) as (Hopen' & Hc & Hl).
      destruct (IH _ Hopen' Hevs) as (Ho & Hcs & Hls).
      split; [exact Ho|]. split.
      * rewrite Hcs, Hc. reflexivity.
      * intros H. apply Hls. cbn [pressed flat_map app] in H.
        destruct H as [H|H]; [left; tauto | right; exact H].
    + destruct (@click_step s0 st event Hopen Hev) as (Hopen' & Hc & Hl).
      destruct (IH _ Hopen' Hevs) as (Ho & Hcs & Hls).
      split; [exact Ho|]. split.
      * rewrite Hcs, Hc. cbn [pressed flat_map]. rewrite <- app_assoc.
        reflexivity.
      * intros _. apply Hls. left. exact Hl.
Qed.

Lemma closing_step (s0 : RoiPoly coord) (st : State coord)
    (closing : MouseEvent coord) :
  open_for_drawing s0 st ->
  line (fst st) <> None ->
  in_axes closing s0 = true ->
  closing_gesture closing = true ->
  let st' := dispatch interactive (button_press_event closing) st in
  completed (fst st') = true /\
  get_roi_coordinates (fst st') = get_roi_coordinates (fst st).
Proof.
  destruct st as [s fig].
  intros (Hax & Hc & Hcl & Hcomp & [Hlen Hline] & Hnone) Hl Hin Hg st'.
  cbn [fst snd] in *. subst st'. unfold dispatch, deliver. cbn [fst snd].
  rewrite Hcl, Hc.
  destruct (line s) as [l|] eqn:El; [|contradiction].
  rewrite <- (@in_axes_same_ax closing s0 s Hax) in Hin.
  rewrite (@button_press_closes coord interactive closing s fig l Hin El Hg).
  destruct Hline as (Hp & Hs & _); [discriminate|].
  destruct (index_pair _ Hp) as (p & q & _ & Ep & Eq).
  destruct (index_pair _ Hs) as (p' & q' & _ & Ep' & Eq').
  unfold close_loop. rewrite Ep, Eq, Ep', Eq'.
  destruct ((List.length (x s) =? 1)%nat && (List.length (y s) =? 1)%nat);
    cbn; destruct (negb interactive && close_figure s); cbn;
    split; reflexivity.
Qed.

(** X1: on a new session with an open figure, after any run of pointer
    motions and accepted clicks with at least one click, the vertices
    are exactly the click positions in click order and the session is
    not completed; a closing gesture in the axes then completes it and
    leaves the vertices as they are. *)
Theorem vertices_are_the_clicks_in_order :
  forall a c rc sf cf (w : World coord) s w' evs
         (closing : MouseEvent coord),
    RoiPoly_init interactive a c rc sf cf w = (Ok s, w') ->
    closed (figure w) = false ->
    forallb (drawing_event s) evs = true ->
    pressed evs <> [] ->
    in_axes closing s = true ->
    closing_gesture closing = true ->
    let st := run interactive evs (s, figure w') in
    let st' := dispatch interactive (button_press_event closing) st in
    completed (fst st) = false /\
    get_roi_coordinates (fst st) = pressed evs /\
    completed (fst st') = true /\
    get_roi_coordinates (fst st') = pressed evs.
Proof.
  intros a c rc sf cf w s w' evs closing Hinit Hopen Hevs Hne Hin Hg st st'.
  pose proof (@init_open_for_drawing a c rc sf cf w s w' Hinit Hopen) as H0.
  destruct (@drawing_run s evs _ H0 Hevs) as (Ho & Hc & Hl).
  fold st in Ho, Hc, Hl.
  destruct (@init_fields _ _ _ _ _ _ _ _ _ _ Hinit) as (Hx & Hy & _).
  unfold get_roi_coordinates in Hc at 2. cbn [fst] in Hc.
  rewrite Hx in Hc. cbn [combine app] in Hc.
  destruct (@closing_step s st closing Ho (Hl (or_intror Hne)) Hin Hg)
    as (Hcomp & Hcs).
  fold st' in Hcomp, Hcs.
  destruct Ho as (_ & _ & _ & Hnc & _).
  repeat split; try assumption. rewrite Hcs. exact Hc.
Qed.

End Drawing.

Section SessionLife.

Variable coord : Type.
Variable interactive : bool.

Lemma motion_dispatch_frame (event : MouseEvent coord) (st : State coord) :
  let st' := dispatch interactive (motion_notify_event event) st in
  get_roi_coordinates (fst st') = get_roi_coordinates (fst st) /\
  completed (fst st') = completed (fst st) /\
  closed (snd st') = closed (snd st) /\
  (line (fst st') = None <-> line (fst st) = None) /\
  (line (fst st) = None -> st' = st).
Proof.
  destruct st as [s fig]. unfold dispatch, deliver. cbn [fst snd].
  destruct (closed fig) eqn:Ecl; [cbn [fst snd]; tauto|].
  destruct (connected (cid1 s) fig); [|cbn [fst snd]; tauto].
  destruct (motion_frame event s fig)
    as (Hx & Hy & Hco & _ & _ & _ & _ & _ & _ & Hcl & _ & Hl & Hsame).
  unfold get_roi_coordinates. rewrite Hx, Hy, Hco, Hcl.
  repeat split; try assumption; try apply Hl.
Qed.

(** X2: pointer motion never changes the polygon: over any run of
    motion events the vertices, the [completed] flag and the open or
    closed status of the figure stay as they are, and before the first
    click (no tracked line) nothing at all changes. *)
Theorem pointer_motion_never_changes_the_polygon :
  forall (evs : list (gui_event coord)) (st : State coord),
    forallb (@is_motion coord) evs = true ->
    let st' := run interactive evs st in
    get_roi_coordinates (fst st') = get_roi_coordinates (fst st) /\
    completed (fst st') = completed (fst st) /\
    closed (snd st') = closed (snd st) /\
    (line (fst st) = None -> st' = st).
Proof.
  induction evs as [|ev evs IH]; intros st Hm; cbv zeta.
  - cbn. tauto.
  - cbn [forallb] in Hm. apply andb_prop in Hm as [Hev Hm].
    change (run interactive (ev :: evs) st)
      with (run interactive evs (dispatch interactive ev st)).
    destruct ev as [event|event]; [|discriminate].
    destruct (motion_dispatch_frame event st) as (Hc & Hco & Hcl & Hl & Hs).
    destruct (IH (dispatch interactive (motion_notify_event event) st) Hm)
      as (Hc' & Hco' & Hcl' & Hs').
    rewrite Hc', Hco', Hcl', Hc, Hco, Hcl.
    repeat split. intros Hn. rewrite Hs'; [apply Hs, Hn | apply Hl, Hn].
Qed.

Lemma outside_ignored (ev : gui_event coord) (s : RoiPoly coord)
    (fig : Figure coord) :
  in_axes (event_of ev) s = false ->
  dispatch interactive ev (s, fig) = (s, fig).
Proof.
  intros Hout. unfold dispatch, deliver. cbn [fst snd].
  destruct (closed fig); [reflexivity|].
  destruct ev as [event|event]; cbn [event_of] in Hout.
  - destruct (connected (cid1 s) fig); [|reflexivity].
    unfold motion_notify_callback. rewrite Hout. reflexivity.
  - destruct (connected (cid2 s) fig); [|reflexivity].
    unfold button_press_callback. rewrite Hout. reflexivity.
Qed.

(** X3: events outside the session's axes are ignored entirely: a run
    of motions and presses none of which is in the axes leaves the
    session and the figure exactly as they were. *)
Theorem events_outside_the_axes_are_ignored :
  forall (evs : list (gui_event coord)) (s : RoiPoly coord)
         (fig : Figure coord),
    forallb (fun ev => negb (in_axes (event_of ev) s)) evs = true ->
    run interactive evs (s, fig) = (s, fig).
Proof.
  induction evs as [|ev evs IH]; intros s fig Hout; [reflexivity|].
  cbn [forallb] in Hout. apply andb_prop in Hout as [Hev Hout].
  change (run interactive (ev :: evs) (s, fig))
    with (run interactive evs (dispatch interactive ev (s, fig))).
  rewrite outside_ignored by (apply negb_true_iff, Hev).
  apply IH, Hout.
Qed.

(** X4: in every state a session can reach, neither handler raises,
    whatever the event. *)
Theorem handlers_never_raise :
  forall (st : State coord) (event : MouseEvent coord),
    reachable interactive st ->
    fst (motion_notify_callback event st) = Normal /\
    fst (button_press_callback interactive event st) = Normal.
Proof.
  intros [s fig] event Hr.
  pose proof (reachable_inv Hr) as Hinv. cbn [fst] in Hinv.
  pose proof Hinv as [Hlen Hline].
  split.
  - unfold motion_notify_callback.
    destruct (in_axes event s); [|reflexivity].
    destruct (line s) as [l|]; [|reflexivity].
    destruct (button_is_None event || button_is event 1); [|reflexivity].
    destruct Hline as (Hp & _ & _); [discriminate|].
    destruct (index_pair _ Hp) as (p & q & _ & -> & ->). reflexivity.
  - unfold button_press_callback.
    destruct (in_axes event s); [|reflexivity].
    destruct (button_is event 1 && negb (dblclick event)).
    + unfold add_vertex. destruct (line s) as [l|]; [|reflexivity].
      destruct Hline as (Hp & _ & _); [discriminate|].
      destruct (index_pair _ Hp) as (p & q & _ & -> & ->). reflexivity.
    + destruct (line s) as [l|] eqn:El; [|reflexivity].
      destruct (closing_gesture event); [|reflexivity].
      apply close_loop_normal; assumption.
Qed.

(** X5: [completed] is never reset: once it is true it stays true over
    any run of events. *)
Theorem completed_is_never_reset :
  forall (evs : list (gui_event coord)) (st : State coord),
    completed (fst st) = true ->
    completed (fst (run interactive evs st)) = true.
Proof.
  induction evs as [|ev evs IH]; intros st Hc; [exact Hc|].
  change (run interactive (ev :: evs) st)
    with (run interactive evs (dispatch interactive ev st)).
  apply IH. unfold dispatch. destruct (closed (snd st)); [exact Hc|].
  destruct st as [s fig]. apply deliver_completed. exact Hc.
Qed.

End SessionLife.

Section Resting.

Variable coord : Type.
Variable interactive : bool.

Lemma close_loop_resting (l : Line2D coord) (s : RoiPoly coord)
    (fig : Figure coord) :
  drawing_inv s -> line s = Some l ->
  let st' := snd (close_loop interactive l (s, fig)) in
  line (fst st') = None -> frozen st'.
Proof.
  intros [Hlen Hline] El.
  destruct Hline as (Hp & Hs & Hx); [congruence|].
  destruct (index_pair _ Hp) as (p & q & _ & Ep & Eq).
  destruct (index_pair _ Hs) as (p' & q' & _ & Ep' & Eq').
  unfold close_loop. rewrite Ep, Eq, Ep', Eq'.
  destruct ((List.length (x s) =? 1)%nat && (List.length (y s) =? 1)%nat)
    eqn:E1.
  - cbn. destruct (negb interactive && close_figure s); cbn;
      intros H; congruence.
  - assert (Hge : 2 <= List.length (x s)).
    { destruct (x s) as [|x0 [|x1 xs]]; [contradiction| |cbn; lia].
      rewrite <- Hlen in E1. discriminate. }
    cbn. destruct (negb interactive && close_figure s);
      cbn [fst snd]; intros _; unfold frozen;
      cbn [fst snd completed x cid1 cid2];
      rewrite ?connected_close, ?connected_draw, ?connected_add_line,
        !connected_disconnect, !Nat.eqb_refl; cbn;
      rewrite ?andb_false_r; repeat split; try reflexivity; exact Hge.
Qed.

Lemma frozen_not_connected (st : State coord) :
  frozen st -> connected (cid2 (fst st)) (snd st) = true -> False.
Proof. intros (_ & _ & _ & H) Hc. congruence. Qed.

Lemma dispatch_resting (ev : gui_event coord) (st : State coord) :
  resting_inv st -> resting_inv (dispatch interactive ev st).
Proof.
  intros [Hinv Hrest]. split; [apply dispatch_inv; exact Hinv|].
  destruct st as [s fig]. unfold dispatch, deliver. cbn [fst snd] in *.
  destruct (closed fig); [exact Hrest|].
  destruct ev as [event|event].
  - destruct (connected (cid1 s) fig); [|exact Hrest].
    destruct (motion_frame event s fig)
      as (_ & _ & _ & _ & _ & _ & _ & _ & _ & _ & _ & Hl & Hsame).
    intros Hn. apply Hl in Hn. rewrite (Hsame Hn). apply Hrest, Hn.
  - destruct (connected (cid2 s) fig) eqn:Ec; [|exact Hrest].
    unfold button_press_callback.
    destruct (in_axes event s); [|exact Hrest].
    destruct (button_is event 1 && negb (dblclick event)).
    + unfold add_vertex. destruct (line s) as [l|] eqn:El.
      * destruct (index (previous_point s) 0), (index (previous_point s) 1);
          cbn [fst snd line]; intros H; congruence.
      * cbn [fst snd line]. intros H. discriminate.
    + destruct (line s) as [l|] eqn:El;
        [|cbn [fst snd]; intros _; apply Hrest; reflexivity].
      destruct (closing_gesture event).
      * intros Hn. right.
        apply (@close_loop_resting l s fig Hinv El Hn).
      * cbn [fst snd]. intros H. congruence.
Qed.

(** X6: a session is in one of three conditions.  In every reachable
    state the two coordinate lists have the same length, and a session
    that tracks no line is either untouched (not completed, no vertex)
    or frozen (completed, at least two vertices, both handlers
    disconnected). *)
Theorem session_without_line_is_untouched_or_frozen :
  forall st : State coord,
    reachable interactive st ->
    List.length (x (fst st)) = List.length (y (fst st)) /\
    (line (fst st) = None -> untouched (fst st) \/ frozen st).
Proof.
  intros st Hr.
  assert (H : resting_inv st).
  { induction Hr as [a c rc sf cf w s w' Hinit | ev st _ IH].
    - destruct (@init_fields _ _ _ _ _ _ _ _ _ _ Hinit)
        as (Hx & Hy & Hl & Hc & _).
      split.
      + unfold drawing_inv. cbn [fst]. rewrite Hx, Hy, Hl.
        split; [reflexivity | intros H; contradiction].
      + intros _. left. unfold untouched. cbn [fst]. tauto.
    - apply dispatch_resting. exact IH. }
  destruct H as [[Hlen _] Hrest]. split; assumption.
Qed.

End Resting.

(* ================================================================= *)
(** ** Further facts about the mask, the statistics and the display *)

Section MaskUse.

Variable coord : Type.
Variable contains_point : list (coord * coord) -> Z * Z -> bool.
Variable pixel : Type.
Variable scalar : Type.
Variable np_mean : list pixel -> scalar.
Variable np_std : list pixel -> scalar.
Variable format_stats : scalar -> scalar -> string.

Lemma poly_verts_needs_a_vertex (self : RoiPoly coord) :
  x self = [] \/ y self = [] -> poly_verts self = Raise IndexError.
Proof.
  unfold poly_verts, index. intros [H|H]; rewrite H.
  - reflexivity.
  - destruct (x self); reflexivity.
Qed.

(** X8: without a vertex there is nothing to compute or show:
    on a session whose coordinate lists are empty (a new one, say),
    [get_mask], [get_mean_and_std], [display_roi] and [display_mean]
    all raise [IndexError] and leave the figure as it is. *)
Theorem no_vertex_raises_IndexError :
  forall (self : RoiPoly coord) (image : ndarray pixel)
         (fig : Figure coord),
    x self = [] \/ y self = [] ->
    get_mask contains_point self image = Raise IndexError /\
    get_mean_and_std contains_point np_mean np_std self image
    = Raise IndexError /\
    display_roi self fig = (Raised IndexError, fig) /\
    display_mean contains_point np_mean np_std format_stats self image fig
    = (Raised IndexError, fig).
Proof.
  intros self image fig H.
  assert (Hm : get_mask contains_point self image = Raise IndexError).
  { unfold get_mask. destruct (shape image).
    rewrite (poly_verts_needs_a_vertex self H). reflexivity. }
  assert (Hs : get_mean_and_std contains_point np_mean np_std self image
               = Raise IndexError).
  { unfold get_mean_and_std. rewrite Hm. reflexivity. }
  repeat split; try assumption.
  - unfold display_roi, index. destruct H as [H|H]; rewrite H.
    + reflexivity.
    + destruct (x self); reflexivity.
  - unfold display_mean. rewrite Hs. reflexivity.
Qed.

(** X9: with at least one vertex [get_mask] succeeds on every image;
    the mask has the shape of the image, and its entry in row [row] and
    column [col] is the verdict of the containment routine on the grid
    point [(col, row)] (x is the column, y the row) for the path built
    from the first vertex and all vertices reversed. *)
Theorem mask_entry_is_the_verdict_at_col_row :
  forall (A : Type) (self : RoiPoly coord) (image : ndarray A) x0 xs y0 ys,
    x self = x0 :: xs ->
    y self = y0 :: ys ->
    exists mask,
      get_mask contains_point self image = Ok mask /\
      shape mask = shape image /\
      List.length (flat mask) = fst (shape image) * snd (shape image) /\
      forall row col,
        row < fst (shape image) -> col < snd (shape image) ->
        nth_error (flat mask) (row * snd (shape image) + col)
        = Some (contains_point
                  ((x0, y0) :: combine (rev (x self)) (rev (y self)))
                  (Z.of_nat col, Z.of_nat row)).
Proof.
  intros A self image x0 xs y0 ys Hx Hy.
  assert (Hv : poly_verts self
               = Ok ((x0, y0) :: combine (rev (x self)) (rev (y self)))).
  { unfold poly_verts. rewrite Hx, Hy. reflexivity. }
  assert (Hm : exists mask, get_mask contains_point self image = Ok mask).
  { unfold get_mask. destruct (shape image). rewrite Hv.
    eexists. reflexivity. }
  destruct Hm as [mask Hm]. exists mask.
  destruct (get_mask_shape contains_point self image Hm) as [Hs Hl].
  repeat split; try assumption.
  intros row col Hr Hc.
  apply (get_mask_pixel contains_point self image Hm Hv Hr Hc).
Qed.

Lemma extract_agree (m : list bool) :
  forall l1 l2 : list pixel,
    List.length l1 = List.length l2 ->
    (forall i, nth_error m i = Some true -> nth_error l1 i = nth_error l2 i) ->
    map snd (filter fst (combine m l1)) = map snd (filter fst (combine m l2)).
Proof.
  induction m as [|b m IH]; intros l1 l2 Hlen Hag; [reflexivity|].
  destruct l1 as [|v1 l1], l2 as [|v2 l2]; try discriminate; [reflexivity|].
  cbn [combine filter fst].
  assert (Hrest : map snd (filter fst (combine m l1))
                  = map snd (filter fst (combine m l2))).
  { apply IH; [cbn in Hlen; lia|]. intros i Hi. apply (Hag (S i)). exact Hi. }
  destruct b; cbn [map snd]; [|exact Hrest].
  specialize (Hag 0 eq_refl). cbn in Hag. injection Hag as ->.
  rewrite Hrest. reflexivity.
Qed.

(** X10: the image matters to the mask only through its shape, and to
    the statistics only through the pixels the mask selects: two images
    of the same shape that agree wherever the mask is true give the
    same mask and the same mean and standard deviation. *)
Theorem statistics_ignore_pixels_outside_the_mask :
  forall (self : RoiPoly coord) (image1 image2 : ndarray pixel)
         (mask : ndarray bool),
    shape image1 = shape image2 ->
    List.length (flat image1) = List.length (flat image2) ->
    get_mask contains_point self image1 = Ok mask ->
    (forall i, nth_error (flat mask) i = Some true ->
               nth_error (flat image1) i = nth_error (flat image2) i) ->
    get_mask contains_point self image2 = Ok mask /\
    get_mean_and_std contains_point np_mean np_std self image1
    = get_mean_and_std contains_point np_mean np_std self image2.
Proof.
  intros self image1 image2 mask Hsh Hlen Hm Hag.
  assert (Hm2 : get_mask contains_point self image2 = Ok mask).
  { unfold get_mask in *. rewrite <- Hsh. exact Hm. }
  split; [exact Hm2|].
  unfold get_mean_and_std. rewrite Hm, Hm2. unfold extract.
  rewrite (extract_agree (flat mask) _ _ Hlen Hag). reflexivity.
Qed.

Lemma flat_map_seq_shift {B : Type} (g : nat -> list B) n :
  forall a,
    flat_map g (seq (S a) n) = flat_map (fun i => g (S i)) (seq a n).
Proof.
  induction n as [|n IH]; intros a; [reflexivity|].
  cbn [seq flat_map]. rewrite IH. reflexivity.
Qed.

Lemma flat_map_nil {A B : Type} (g : A -> list B) (l : list A) :
  (forall a, g a = []) -> flat_map g l = [].
Proof.
  intros Hg. induction l as [|a l IH]; [reflexivity|].
  cbn [flat_map]. rewrite Hg, IH. reflexivity.
Qed.

Lemma extract_is_pixels_where_true {A : Type} (m : list bool) :
  forall l : list A,
    map snd (filter fst (combine m l)) = pixels_where_true m l.
Proof.
  unfold pixels_where_true.
  induction m as [|b m IH]; intros l; [reflexivity|].
  destruct l as [|v l].
  - cbn [combine filter map]. symmetry. apply flat_map_nil.
    intros i. destruct (nth_error (b :: m) i) as [[|]|];
      destruct i; reflexivity.
  - cbn [List.length seq flat_map nth_error]. rewrite flat_map_seq_shift.
    cbn [nth_error]. rewrite <- IH.
    cbn [combine filter fst]. destruct b; reflexivity.
Qed.

(** X17: [get_mean_and_std] hands both numpy routines exactly the
    values of the image at the positions where the mask of [get_mask]
    is true, by increasing position in row-major order, and returns
    their two results as a pair, mean first. *)
Theorem get_mean_and_std_uses_the_pixels_where_the_mask_is_true :
  forall (self : RoiPoly coord) (image : ndarray pixel)
         (mask : ndarray bool),
    get_mask contains_point self image = Ok mask ->
    extract mask image = pixels_where_true (flat mask) (flat image) /\
    get_mean_and_std contains_point np_mean np_std self image
    = Ok (np_mean (pixels_where_true (flat mask) (flat image)),
          np_std (pixels_where_true (flat mask) (flat image))).
Proof.
  intros self image mask Hm.
  assert (E : extract mask image
              = pixels_where_true (flat mask) (flat image)).
  { unfold extract. apply extract_is_pixels_where_true. }
  split; [exact E|].
  unfold get_mean_and_std. rewrite Hm, E. reflexivity.
Qed.

(** X11: [display_roi] draws the closed outline: for a session with
    vertices v0, ..., vn it adds one line to the current axes, in the
    session's colour, through v0, ..., vn and back to v0, and redraws
    once. *)
Theorem display_roi_draws_the_closed_outline :
  forall (self : RoiPoly coord) (fig : Figure coord) v0 vs,
    List.length (x self) = List.length (y self) ->
    get_roi_coordinates self = v0 :: vs ->
    exists l,
      display_roi self fig = (Normal, draw (add_line (gca fig) l fig)) /\
      combine (line_x l) (line_y l) = v0 :: vs ++ [v0] /\
      line_color l = color self.
Proof.
  intros self fig v0 vs Hlen Hc. unfold display_roi, get_roi_coordinates in *.
  destruct (x self) as [|x0 xs] eqn:Ex; [discriminate|].
  destruct (y self) as [|y0 ys] eqn:Ey; [discriminate|].
  cbn [index nth_error]. eexists. split; [reflexivity|].
  cbn [line_x line_y line_color]. split; [|reflexivity].
  rewrite (combine_app _ _ _ _ Hlen), Hc. cbn in Hc.
  injection Hc as <- _. reflexivity.
Qed.

End MaskUse.

Section Construction.

Variable coord : Type.
Variable interactive : bool.

(** X12: without [roicolor] the constructor prints no warning and
    cannot fail, whatever the warning filters are.  The new session has
    no vertex, is not completed, has the colour and the [close_fig] flag
    it was given, and its two handlers are connected under different
    ids; the figure is shown only if [show_fig] is set, blocking exactly
    when the interpreter is not interactive. *)
Theorem constructor_without_roicolor :
  forall (ax_arg : option nat) (color_arg : string)
         (show_fig close_fig : bool) (w : World coord),
    exists (s : RoiPoly coord) (fig : Figure coord),
      RoiPoly_init interactive ax_arg color_arg None show_fig close_fig w
      = (Ok s, mkWorld (warnings w) fig) /\
      get_roi_coordinates s = [] /\ line s = None /\ completed s = false /\
      color s = color_arg /\ close_figure s = close_fig /\
      cid1 s <> cid2 s /\
      connected (cid1 s) fig = true /\ connected (cid2 s) fig = true /\
      closed fig = closed (figure w) /\
      shows fig
      = shows (figure w) ++ (if show_fig then [negb interactive] else []).
Proof.
  intros ax_arg color_arg show_fig close_fig w.
  unfold RoiPoly_init. cbn.
  eexists. eexists. split; [reflexivity|].
  cbn [get_roi_coordinates x y combine line completed color close_figure
       cid1 cid2].
  repeat split.
  - apply Nat.neq_succ_diag_r.
  - unfold connected, show_figure.
    destruct show_fig, interactive; cbn; rewrite !existsb_app; cbn;
      rewrite Nat.eqb_refl, ?orb_true_r; reflexivity.
  - unfold connected, show_figure.
    destruct show_fig, interactive; cbn; rewrite !existsb_app; cbn;
      rewrite Nat.eqb_refl, ?orb_true_r; reflexivity.
  - unfold show_figure. destruct show_fig, interactive; reflexivity.
  - unfold show_figure. destruct show_fig, interactive; cbn;
      rewrite ?app_nil_r; reflexivity.
Qed.

(** X13: the alias [roipoly] called with [roicolor] warns twice, in
    this order: once for the alias and once, inside the constructor,
    for the argument; with the filter the module installs neither
    warning raises, and the session it returns has the colour
    [roicolor]. *)
Theorem roipoly_with_roicolor_warns_twice :
  forall (ax_arg : option nat) (color_arg rc : string)
         (show_fig close_fig : bool) (w : World coord),
    always_warns w ->
    exists (s : RoiPoly coord) (fig : Figure coord),
      roipoly interactive ax_arg color_arg (Some rc) show_fig close_fig w
      = (Ok s,
         mkWorld (Warnings.report "Use 'color' instead of 'roicolor'!"
                    (Warnings.report "Import 'RoiPoly' instead of 'roipoly'!"
                       (warnings w)))
                 fig) /\
      color s = rc /\
      Warnings.shown (warnings w) ++
        ["Import 'RoiPoly' instead of 'roipoly'!";
         "Use 'color' instead of 'roicolor'!"]%string
      = Warnings.shown
          (Warnings.report "Use 'color' instead of 'roicolor'!"
             (Warnings.report "Import 'RoiPoly' instead of 'roipoly'!"
                (warnings w))).
Proof.
  intros ax_arg color_arg rc show_fig close_fig w Hw.
  unfold roipoly. rewrite (warned_always _ Hw).
  unfold RoiPoly_init.
  rewrite (deprecation_always _ (reported_always_warns _ Hw)).
  cbn. eexists. eexists. split; [reflexivity|]. split; [reflexivity|].
  rewrite <- app_assoc. reflexivity.
Qed.

End Construction.

(* ================================================================= *)
(** ** Further facts about the multi-ROI orchestrator *)

Section MultiLife.

Variable coord : Type.
Variable interactive : bool.

(** What [make_buttons] leaves behind: the axes made last, for the
    "Finish" button, is the current one; the figure is shown blocking
    and is otherwise as it was. *)
Lemma make_buttons_makes_a_button_axes_current (fig : Figure coord) :
  gca (make_buttons fig) = S (n_axes fig) /\
  n_axes (make_buttons fig) = S (S (n_axes fig)) /\
  shows (make_buttons fig) = shows fig ++ [true] /\
  closed (make_buttons fig) = closed fig /\
  callbacks (make_buttons fig) = callbacks fig.
Proof. repeat split. Qed.

(** X14: with an empty palette [add] never creates a session: it
    leaves the program as it is, and when no session is in progress it
    raises [ZeroDivisionError]. *)
Theorem add_with_empty_palette_creates_nothing :
  forall p : Program coord,
    color_cycle (multi p) = [] ->
    snd (add interactive p) = p /\
    (in_progress p = [] ->
     add interactive p = (Raised ZeroDivisionError, p)).
Proof.
  intros p Hc. unfold add. rewrite Hc. cbn [List.length mod_].
  split.
  - destruct (nonempty (rois (multi p)) && negb (all_completed p));
      reflexivity.
  - intros Hn. apply all_completed_in_progress in Hn. rewrite Hn.
    rewrite andb_false_r. reflexivity.
Qed.

Lemma deliver_keeps_figure (ev : gui_event coord) (s : RoiPoly coord)
    (fig : Figure coord) :
  close_figure s = false ->
  close_figure (fst (deliver interactive ev (s, fig))) = false /\
  closed (snd (deliver interactive ev (s, fig))) = closed fig.
Proof.
  intros Hcf. unfold deliver. cbn [fst snd].
  destruct ev as [event|event].
  - destruct (connected (cid1 s) fig); [|split; assumption || reflexivity].
    destruct (motion_frame event s fig)
      as (_ & _ & _ & _ & _ & _ & H & _ & _ & Hcl & _).
    rewrite H, Hcl. split; [exact Hcf | reflexivity].
  - destruct (connected (cid2 s) fig); [|split; assumption || reflexivity].
    unfold button_press_callback.
    destruct (in_axes event s); [|split; assumption || reflexivity].
    destruct (button_is event 1 && negb (dblclick event)).
    + unfold add_vertex. destruct (line s).
      * destruct (index (previous_point s) 0),
          (index (previous_point s) 1); cbn;
          split; assumption || reflexivity.
      * cbn. split; assumption || reflexivity.
    + destruct (line s) as [l|]; [|split; assumption || reflexivity].
      destruct (closing_gesture event);
        [|split; assumption || reflexivity].
      unfold close_loop.
      destruct ((List.length (x s) =? 1)%nat
                && (List.length (y s) =? 1)%nat).
      * cbn. rewrite Hcf, andb_false_r. cbn.
        split; assumption || reflexivity.
      * destruct (index (previous_point s) 0), (index (start_point s) 0),
          (index (previous_point s) 1), (index (start_point s) 1); cbn;
          rewrite ?Hcf, ?andb_false_r; cbn;
          split; assumption || reflexivity.
Qed.

Lemma deliver_all_keeps_figure (ev : gui_event coord)
    (objs : list (RoiPoly coord)) :
  forall fig : Figure coord,
    Forall (fun s => close_figure s = false) objs ->
    Forall (fun s => close_figure s = false)
           (fst (deliver_all interactive ev objs fig)) /\
    closed (snd (deliver_all interactive ev objs fig)) = closed fig.
Proof.
  induction objs as [|s rest IH]; intros fig Hall.
  - split; [constructor | reflexivity].
  - inversion Hall as [|? ? Hs Hrest]; subst.
    cbn [deliver_all].
    destruct (deliver_keeps_figure ev s fig Hs) as [Hs' Hcl].
    destruct (deliver interactive ev (s, fig)) as [s' fig1].
    destruct (IH fig1 Hrest) as [Hrest' Hcl'].
    destruct (deliver_all interactive ev rest fig1) as [rest' fig2].
    cbn [fst snd] in *. split; [constructor; assumption | congruence].
Qed.

Lemma add_keeps_figure (p : Program coord) :
  sessions_keep_figure p ->
  sessions_keep_figure (snd (add interactive p)) /\
  closed (figure (world (snd (add interactive p))))
  = closed (figure (world p)).
Proof.
  intros Hk. unfold add.
  destruct (nonempty (rois (multi p)) && negb (all_completed p));
    [split; [exact Hk | reflexivity]|].
  destruct (mod_ _ _) as [idx|e]; [|split; [exact Hk | reflexivity]].
  destruct (pick_name _ _ _) as [n|e]; [|split; [exact Hk | reflexivity]].
  destruct (index _ _) as [c|e]; [|split; [exact Hk | reflexivity]].
  cbn. split; [|reflexivity].
  unfold sessions_keep_figure in *. cbn [objects].
  apply Forall_app. split; [exact Hk|]. constructor; [reflexivity|constructor].
Qed.

Lemma step_keeps_figure (p : Program coord) (t : trigger coord) :
  is_finish t = false ->
  sessions_keep_figure p ->
  sessions_keep_figure (step interactive p t) /\
  closed (figure (world (step interactive p t)))
  = closed (figure (world p)).
Proof.
  intros Ht Hk. unfold step.
  destruct (closed (figure (world p))) eqn:Ecl;
    [split; [exact Hk | exact Ecl]|].
  destruct t as [| |ev]; [|discriminate|].
  - rewrite <- Ecl. apply add_keeps_figure. exact Hk.
  - destruct (deliver_all_keeps_figure ev (figure (world p)) Hk)
      as [Hk' Hcl].
    destruct (deliver_all interactive ev (objects p) (figure (world p)))
      as [objs fig].
    cbn [fst snd] in *. split; [exact Hk' | cbn; congruence].
Qed.

(** X15: only "Finish" closes the shared figure.  The sessions
    [MultiRoi] creates never close it, interactive or not: over any run
    of "New ROI" clicks and mouse events a figure that was open stays
    open. *)
Theorem only_finish_closes_the_shared_figure :
  forall (ax_arg : option nat) (names : option (list string))
         (colors : list string) (w : World coord)
         (ts : list (trigger coord)),
    closed (figure w) = false ->
    forallb (fun t => negb (is_finish t)) ts = true ->
    closed (figure (world (run_multi interactive ts
                             (MultiRoi_init ax_arg names colors w))))
    = false.
Proof.
  intros ax_arg names colors w ts Hopen Hts.
  assert (H : forall p : Program coord,
             sessions_keep_figure p ->
             closed (figure (world p)) = false ->
             closed (figure (world (run_multi interactive ts p))) = false).
  { induction ts as [|t ts IH]; intros p Hk Hcl; [exact Hcl|].
    cbn [forallb] in Hts. apply andb_prop in Hts as [Ht Hts].
    apply negb_true_iff in Ht.
    destruct (@step_keeps_figure p t Ht Hk) as [Hk' Hcl'].
    cbn [run_multi fold_left]. apply (IH Hts); [exact Hk' | congruence]. }
  apply H; [constructor | exact Hopen].
Qed.

(** X16: while fewer sessions exist than the palette has colours, an
    [add] with no session in progress starts a session under the name
    at that position of the name list (the number count + 1 when the
    list is absent or too short), in the colour at that position of the
    palette, on the collection's axes, not completed and with
    [close_fig] off. *)
Theorem add_takes_name_and_colour_by_position :
  forall p : Program coord,
    in_progress p = [] ->
    List.length (rois (multi p)) < List.length (color_cycle (multi p)) ->
    exists (roi : RoiPoly coord) (w : World coord),
      add interactive p
      = (Normal,
         mkProgram
           (mkMultiRoi (color_cycle (multi p)) (roi_names (multi p))
              (multi_ax (multi p))
              (setitem (rois (multi p))
                 (name_at (roi_names (multi p))
                          (List.length (rois (multi p))))
                 (List.length (objects p))))
           (objects p ++ [roi]) w) /\
      color roi
      = nth (List.length (rois (multi p))) (color_cycle (multi p))
            ""%string /\
      ax roi = multi_ax (multi p) /\
      completed roi = false /\ close_figure roi = false /\
      get_roi_coordinates roi = [].
Proof.
  intros p Hn Hlt. unfold add.
  apply all_completed_in_progress in Hn. rewrite Hn, andb_false_r.
  destruct (pick_name_within_palette (multi p) Hlt) as [Hmod Hname].
  rewrite Hmod, Hname. fold (name_at (roi_names (multi p))
                               (List.length (rois (multi p)))).
  unfold index.
  destruct (nth_error (color_cycle (multi p)) (List.length (rois (multi p))))
    as [c|] eqn:Ec; [|apply nth_error_None in Ec; lia].
  cbn. eexists. eexists. split; [reflexivity|].
  cbn. repeat split. symmetry. apply nth_error_nth. exact Ec.
Qed.

End MultiLife.

(* ================================================================= *)
(** ** The further facts at concrete inputs *)

Section FurtherExamples.

Import Fixture Fixture2.
Local Open Scope Z_scope.

Lemma drawing_state_reachable : reachable false drawing_state.
Proof.
  unfold drawing_state. repeat apply reach_event.
  exact (reach_init false None "b" None false false world0
                    session0_constructed).
Qed.

Lemma vertices_are_the_clicks_in_order_witness :
  RoiPoly_init false None "b" None false false world0
  = (Ok session0, mkWorld (warnings world0) figure0) /\
  closed (figure world0) = false /\
  forallb (drawing_event session0) two_clicks = true /\
  pressed two_clicks <> [] /\
  in_axes (at_ (Some 3) false 2 2) session0 = true /\
  closing_gesture (at_ (Some 3) false 2 2) = true /\
  let st := run false two_clicks (session0, figure0) in
  let st' := dispatch false (right_click 2 2) st in
  completed (fst st) = false /\
  get_roi_coordinates (fst st) = pressed two_clicks /\
  completed (fst st') = true /\
  get_roi_coordinates (fst st') = pressed two_clicks.
Proof.
  split; [exact session0_constructed|].
  split; [reflexivity|]. split; [reflexivity|]. split; [discriminate|].
  split; [reflexivity|]. split; [reflexivity|].
  apply (@vertices_are_the_clicks_in_order Z false None "b"%string None
           false false world0 session0 (mkWorld (warnings world0) figure0)
           two_clicks (at_ (Some 3) false 2 2));
    [exact session0_constructed | reflexivity | reflexivity | discriminate
    | reflexivity | reflexivity].
Defined.

Lemma pointer_motion_never_changes_the_polygon_witness :
  forallb (@is_motion Z) [move 2 2; move 3 2] = true /\
  let st' := run false [move 2 2; move 3 2] drawing_state in
  get_roi_coordinates (fst st') = get_roi_coordinates (fst drawing_state) /\
  completed (fst st') = completed (fst drawing_state) /\
  closed (snd st') = closed (snd drawing_state) /\
  (line (fst drawing_state) = None -> st' = drawing_state).
Proof.
  split; [reflexivity|].
  apply (@pointer_motion_never_changes_the_polygon Z false
           [move 2 2; move 3 2] drawing_state).
  reflexivity.
Defined.

Lemma events_outside_the_axes_are_ignored_witness :
  forallb (fun ev => negb (in_axes (event_of ev) session0)) misses = true /\
  run false misses (session0, figure0) = (session0, figure0).
Proof.
  split; [reflexivity|].
  apply (@events_outside_the_axes_are_ignored Z false misses session0
           figure0).
  reflexivity.
Defined.

Lemma handlers_never_raise_witness :
  reachable false drawing_state /\
  fst (motion_notify_callback (at_ (Some 1) false 2 2) drawing_state)
  = Normal /\
  fst (button_press_callback false (at_ (Some 1) false 2 2) drawing_state)
  = Normal.
Proof.
  split; [exact drawing_state_reachable|].
  apply (@handlers_never_raise Z false drawing_state
           (at_ (Some 1) false 2 2)).
  exact drawing_state_reachable.
Defined.

Lemma completed_is_never_reset_witness :
  completed (fst (dispatch false (right_click 2 2) drawing_state)) = true /\
  completed (fst (run false [click 5 5; move 6 6]
                      (dispatch false (right_click 2 2) drawing_state)))
  = true.
Proof.
  split; [vm_compute; reflexivity|].
  apply (@completed_is_never_reset Z false [click 5 5; move 6 6]
           (dispatch false (right_click 2 2) drawing_state)).
  vm_compute. reflexivity.
Defined.

Lemma session_without_line_is_untouched_or_frozen_witness :
  reachable false (dispatch false (right_click 2 2) drawing_state) /\
  List.length (x (fst (dispatch false (right_click 2 2) drawing_state)))
  = List.length (y (fst (dispatch false (right_click 2 2) drawing_state)))
  /\ (line (fst (dispatch false (right_click 2 2) drawing_state)) = None ->
      untouched (fst (dispatch false (right_click 2 2) drawing_state)) \/
      frozen (dispatch false (right_click 2 2) drawing_state)).
Proof.
  assert (Hr : reachable false
                 (dispatch false (right_click 2 2) drawing_state)).
  { apply reach_event. exact drawing_state_reachable. }
  split; [exact Hr|].
  apply (@session_without_line_is_untouched_or_frozen Z false
           (dispatch false (right_click 2 2) drawing_state) Hr).
Defined.

Lemma multi_point_completion_freezes_witness :
  reachable false drawing_state /\
  in_axes (at_ (Some 3) false 2 2) (fst drawing_state) = true /\
  line (fst drawing_state) = Some second_segment /\
  closing_gesture (at_ (Some 3) false 2 2) = true /\
  List.length (x (fst drawing_state)) <> 1%nat /\
  let st' := snd (button_press_callback false (at_ (Some 3) false 2 2)
                    drawing_state) in
  completed (fst st') = true /\
  get_roi_coordinates (fst st') = get_roi_coordinates (fst drawing_state) /\
  line (fst st') = None /\
  connected (cid1 (fst st')) (snd st') = false /\
  connected (cid2 (fst st')) (snd st') = false /\
  run false [click 5 5; move 6 6; right_click 7 7] st' = st'.
Proof.
  split; [exact drawing_state_reachable|].
  split; [reflexivity|]. split; [vm_compute; reflexivity|].
  split; [reflexivity|]. split; [vm_compute; discriminate|].
  apply (@multi_point_completion_freezes Z false drawing_state
           (at_ (Some 3) false 2 2) second_segment
           [click 5 5; move 6 6; right_click 7 7]);
    [exact drawing_state_reachable | reflexivity | vm_compute; reflexivity
    | reflexivity | vm_compute; discriminate].
Defined.

Lemma no_vertex_raises_IndexError_witness :
  (x session0 = [] \/ y session0 = []) /\
  get_mask accept_all session0 image5 = Raise IndexError /\
  get_mean_and_std accept_all sum_of count_of session0 image5
  = Raise IndexError /\
  display_roi session0 figure0 = (Raised IndexError, figure0) /\
  display_mean accept_all sum_of count_of no_format session0 image5 figure0
  = (Raised IndexError, figure0).
Proof.
  split; [left; reflexivity|].
  apply (@no_vertex_raises_IndexError Z accept_all Z Z sum_of count_of
           no_format session0 image5 figure0).
  left. reflexivity.
Defined.

Lemma mask_entry_is_the_verdict_at_col_row_witness :
  x rectangle = 1 :: [1; 3; 3] /\
  y rectangle = 1 :: [3; 3; 1] /\
  exists mask,
    get_mask first_column rectangle image_a = Ok mask /\
    shape mask = shape image_a /\
    List.length (flat mask)
    = (fst (shape image_a) * snd (shape image_a))%nat /\
    forall row col,
      (row < fst (shape image_a))%nat -> (col < snd (shape image_a))%nat ->
      nth_error (flat mask) (row * snd (shape image_a) + col)
      = Some (first_column
                ((1, 1) :: combine (rev (x rectangle)) (rev (y rectangle)))
                (Z.of_nat col, Z.of_nat row)).
Proof.
  split; [reflexivity|]. split; [reflexivity|].
  apply (@mask_entry_is_the_verdict_at_col_row Z first_column Z rectangle
           image_a 1 [1; 3; 3] 1 [3; 3; 1]); reflexivity.
Defined.

Lemma image_a_b_agree_on_first_column :
  forall i, nth_error [true; false] i = Some true ->
            nth_error (flat image_a) i = nth_error (flat image_b) i.
Proof.
  intros [|[|i]] H; [reflexivity | discriminate H |].
  cbn in H. destruct i; discriminate H.
Qed.

Lemma statistics_ignore_pixels_outside_the_mask_witness :
  shape image_a = shape image_b /\
  List.length (flat image_a) = List.length (flat image_b) /\
  get_mask first_column rectangle image_a
  = Ok (mkArray (1%nat, 2%nat) [true; false]) /\
  (forall i, nth_error (flat (mkArray (1%nat, 2%nat) [true; false])) i
             = Some true ->
             nth_error (flat image_a) i = nth_error (flat image_b) i) /\
  get_mask first_column rectangle image_b
  = Ok (mkArray (1%nat, 2%nat) [true; false]) /\
  get_mean_and_std first_column sum_of count_of rectangle image_a
  = get_mean_and_std first_column sum_of count_of rectangle image_b.
Proof.
  split; [reflexivity|]. split; [reflexivity|]. split; [reflexivity|].
  split; [exact image_a_b_agree_on_first_column|].
  apply (@statistics_ignore_pixels_outside_the_mask Z first_column Z Z
           sum_of count_of rectangle image_a image_b
           (mkArray (1%nat, 2%nat) [true; false]));
    [reflexivity | reflexivity | reflexivity
    | exact image_a_b_agree_on_first_column].
Defined.

Lemma get_mean_and_std_uses_the_pixels_where_the_mask_is_true_witness :
  get_mask first_column rectangle image_a
  = Ok (mkArray (1%nat, 2%nat) [true; false]) /\
  extract (mkArray (1%nat, 2%nat) [true; false]) image_a
  = pixels_where_true [true; false] (flat image_a) /\
  get_mean_and_std first_column sum_of count_of rectangle image_a
  = Ok (sum_of (pixels_where_true [true; false] (flat image_a)),
        count_of (pixels_where_true [true; false] (flat image_a))).
Proof.
  split; [reflexivity|].
  apply (@get_mean_and_std_uses_the_pixels_where_the_mask_is_true Z
           first_column Z Z sum_of count_of rectangle image_a
           (mkArray (1%nat, 2%nat) [true; false])).
  reflexivity.
Defined.

Lemma display_roi_draws_the_closed_outline_witness :
  List.length (x rectangle) = List.length (y rectangle) /\
  get_roi_coordinates rectangle = (1, 1) :: [(1, 3); (3, 3); (3, 1)] /\
  exists l,
    display_roi rectangle figure0
    = (Normal, draw (add_line (gca figure0) l figure0)) /\
    combine (line_x l) (line_y l)
    = (1, 1) :: [(1, 3); (3, 3); (3, 1)] ++ [(1, 1)] /\
    line_color l = color rectangle.
Proof.
  split; [reflexivity|]. split; [reflexivity|].
  apply (@display_roi_draws_the_closed_outline Z rectangle figure0 (1, 1)
           [(1, 3); (3, 3); (3, 1)]); reflexivity.
Defined.

Lemma roipoly_with_roicolor_warns_twice_witness :
  always_warns world0 /\
  exists (s : RoiPoly Z) (fig : Figure Z),
    roipoly false None "b" (Some "r"%string) false false world0
    = (Ok s,
       mkWorld (Warnings.report "Use 'color' instead of 'roicolor'!"
                  (Warnings.report "Import 'RoiPoly' instead of 'roipoly'!"
                     (warnings world0)))
               fig) /\
    color s = "r"%string /\
    Warnings.shown (warnings world0) ++
      ["Import 'RoiPoly' instead of 'roipoly'!";
       "Use 'color' instead of 'roicolor'!"]%string
    = Warnings.shown
        (Warnings.report "Use 'color' instead of 'roicolor'!"
           (Warnings.report "Import 'RoiPoly' instead of 'roipoly'!"
              (warnings world0))).
Proof.
  split; [reflexivity|].
  apply (@roipoly_with_roicolor_warns_twice Z false None "b"%string
           "r"%string false false world0).
  reflexivity.
Defined.

Lemma add_with_empty_palette_creates_nothing_witness :
  color_cycle (multi no_palette) = [] /\
  snd (add false no_palette) = no_palette /\
  (in_progress no_palette = [] ->
   add false no_palette = (Raised ZeroDivisionError, no_palette)).
Proof.
  split; [reflexivity|].
  apply (@add_with_empty_palette_creates_nothing Z false no_palette).
  reflexivity.
Defined.

Lemma only_finish_closes_the_shared_figure_witness :
  closed (figure world0) = false /\
  forallb (fun t => negb (is_finish t)) (rounds 2) = true /\
  closed (figure (world (run_multi false (rounds 2)
                           (MultiRoi_init None None default_color_cycle
                                          world0))))
  = false.
Proof.
  split; [reflexivity|]. split; [reflexivity|].
  apply (@only_finish_closes_the_shared_figure Z false None None
           default_color_cycle world0 (rounds 2)); reflexivity.
Defined.

Lemma add_takes_name_and_colour_by_position_witness :
  in_progress named_AB = [] /\
  (List.length (rois (multi named_AB))
   < List.length (color_cycle (multi named_AB)))%nat /\
  exists (roi : RoiPoly Z) (w : World Z),
    add false named_AB
    = (Normal,
       mkProgram
         (mkMultiRoi (color_cycle (multi named_AB))
            (roi_names (multi named_AB)) (multi_ax (multi named_AB))
            (setitem (rois (multi named_AB))
               (name_at (roi_names (multi named_AB))
                        (List.length (rois (multi named_AB))))
               (List.length (objects named_AB))))
         (objects named_AB ++ [roi]) w) /\
    color roi
    = nth (List.length (rois (multi named_AB)))
          (color_cycle (multi named_AB)) ""%string /\
    ax roi = multi_ax (multi named_AB) /\
    completed roi = false /\ close_figure roi = false /\
    get_roi_coordinates roi = [].
Proof.
  split; [reflexivity|]. split; [cbn; lia|].
  apply (@add_takes_name_and_colour_by_position Z false named_AB);
    [reflexivity | cbn; lia].
Defined.

End FurtherExamples.
